(** * cruzdb.intersecter: interval index over start-sorted arrays

    A shallow embedding of [cruzdb/intersecter.py] (Python 2) and the
    properties of its query operations.

    Python integers are unbounded, so they are [Z].  A Python list is a
    [list]; indexing and slicing follow Python's rules for negative and
    out-of-range positions.  The per-chromosome [defaultdict(list)] is a
    [gmap] whose lookup inserts an empty list under a missing key.
    Exceptions are explicit: a computation yields an [outcome]. *)

From stdpp Require Import gmap strings list fin_maps sorting.
From Equations Require Import Equations.
From Stdlib Require Import ZArith Lia.

Local Open Scope Z_scope.

(** ** Exceptions and results *)

Inductive exn : Type :=
| AssertionError
| IndexError
| ValueError
| ZeroDivisionError.

Inductive outcome (A : Type) : Type :=
| Return (a : A)
| Raise (e : exn).

Arguments Return {A} a.
Arguments Raise {A} e.

Definition obind {A B : Type} (o : outcome A) (k : A -> outcome B) : outcome B :=
  match o with
  | Return a => k a
  | Raise e => Raise e
  end.

Notation "'let?' x ':=' o 'in' k" := (obind o (fun x => k))
  (at level 10, x name, o at level 200, k at level 200, only parsing).

(** ** Python built-ins used by the module *)

(** [len(l)] as a Python integer. *)
Definition len {A : Type} (l : list A) : Z := Z.of_nat (length l).

(** [l[i]]: a negative index counts from the end; anything outside
    [-len(l) <= i < len(l)] raises [IndexError]. *)
Definition py_getitem {A : Type} (l : list A) (i : Z) : outcome A :=
  let j := if i <? 0 then i + len l else i in
  if (j <? 0) || (len l <=? j) then Raise IndexError
  else match l !! Z.to_nat j with
       | Some a => Return a
       | None => Raise IndexError
       end.

(** Normalisation of one slice bound, as [PySlice_AdjustIndices] does for
    step 1: negative bounds count from the end, then clamp to [0, len]. *)
Definition py_clamp (n i : Z) : Z :=
  let j := if i <? 0 then i + n else i in
  if j <? 0 then 0 else if n <? j then n else j.

(** [l[a:b]]; never raises. *)
Definition py_slice {A : Type} (l : list A) (a b : Z) : list A :=
  let a' := py_clamp (len l) a in
  let b' := py_clamp (len l) b in
  take (Z.to_nat (b' - a')) (drop (Z.to_nat a') l).

(** [l[:b]]. *)
Definition py_slice_to {A : Type} (l : list A) (b : Z) : list A :=
  py_slice l 0 b.

(** [range(a, b)]. *)
Definition py_range (a b : Z) : list Z := seqZ a (b - a).

(** [cmp(x, y)] on integers. *)
Definition py_cmp (x y : Z) : Z :=
  if x <? y then -1 else if y <? x then 1 else 0.

(** [max(l)] of a list of integers; [ValueError] on the empty list. *)
Definition py_max (l : list Z) : outcome Z :=
  match l with
  | [] => Raise ValueError
  | x :: l' => Return (foldl Z.max x l')
  end.

(** [1/0] and friends: Python 2 integer division floors and raises
    [ZeroDivisionError] on a zero divisor. *)
Definition py_div (a b : Z) : outcome Z :=
  if b =? 0 then Raise ZeroDivisionError else Return (a `div` b).

(** [list.sort] is stable and only ever asks whether one element is
    strictly below another.  For a total preorder the stable sorted
    arrangement is unique, so the sort is modelled by stable insertion:
    an element is placed before the first one that is not strictly below
    it.  [lt a b] is [key(a) < key(b)] for [sort(key=...)] and
    [cmp(a, b) < 0] for [sort(cmp=...)]. *)
Fixpoint py_insert {A : Type} (lt : A -> A -> bool) (x : A) (l : list A) : list A :=
  match l with
  | [] => [x]
  | y :: l' => if lt y x then y :: py_insert lt x l' else x :: y :: l'
  end.

Fixpoint py_sort {A : Type} (lt : A -> A -> bool) (l : list A) : list A :=
  match l with
  | [] => []
  | x :: l' => py_insert lt x (py_sort lt l')
  end.

Definition py_sort_key {A : Type} (key : A -> Z) : list A -> list A :=
  py_sort (fun a b => key a <? key b).

Definition py_sort_cmp {A : Type} (cmp : A -> A -> Z) : list A -> list A :=
  py_sort (fun a b => cmp a b <? 0).

(** ** Feature *)

Record Feature : Type := mkFeature {
  start : Z;
  end_ : Z;
  strand : Z;
  name : string;
  info : option string;
  chrom : option string
}.

(** [Feature.__init__]: the constructor asserts [start <= end]. *)
Definition Feature_init (start end_ strand : Z) (name : string)
    (info chrom : option string) : outcome Feature :=
  if start <=? end_ then Return (mkFeature start end_ strand name info chrom)
  else Raise AssertionError.

(** [Feature(start, end)] with every keyword argument at its default. *)
Definition Feature_range (start end_ : Z) : outcome Feature :=
  Feature_init start end_ 0 "" None None.

(** ** distance *)

Definition distance (f1 f2 : Feature) : Z :=
  if end_ f1 <? start f2 then start f2 - end_ f1
  else if end_ f2 <? start f1 then start f1 - end_ f2
  else 0.

(** [_dist_compare] orders pairs by the distance between their components. *)
Definition _dist_compare (a b : Feature * Feature) : Z :=
  py_cmp (distance a.1 a.2) (distance b.1 b.2).

(** ** Binary searches *)

(** The [while lo < hi] loops shrink [hi - lo] at every turn, which is the
    measure of the recursion. *)
Equations? binsearch_left_start (intervals : list Feature) (x lo hi : Z)
  : outcome Z by wf (Z.to_nat (hi - lo)) lt :=
  binsearch_left_start intervals x lo hi with Z_lt_dec lo hi := {
    | right _ := Return lo
    | left _ :=
        let mid := (lo + hi) `div` 2 in
        let? f := py_getitem intervals mid in
        if start f <? x then binsearch_left_start intervals x (mid + 1) hi
        else binsearch_left_start intervals x lo mid }.
Proof.
  all: pose proof (Z.div_mod (lo + hi) 2 ltac:(lia));
    pose proof (Z.mod_pos_bound (lo + hi) 2 ltac:(lia)); lia.
Qed.

(** Python 2: [/] on two integers is floor division, as [//] is. *)
Equations? binsearch_right_end (intervals : list Feature) (x lo hi : Z)
  : outcome Z by wf (Z.to_nat (hi - lo)) lt :=
  binsearch_right_end intervals x lo hi with Z_lt_dec lo hi := {
    | right _ := Return lo
    | left _ :=
        let mid := (lo + hi) `div` 2 in
        let? f := py_getitem intervals mid in
        if x <? start f then binsearch_right_end intervals x lo mid
        else binsearch_right_end intervals x (mid + 1) hi }.
Proof.
  all: pose proof (Z.div_mod (lo + hi) 2 ltac:(lia));
    pose proof (Z.mod_pos_bound (lo + hi) 2 ltac:(lia)); lia.
Qed.

(** The positions [mid] at which the two loops read [intervals], in the
    order of the reads.  Same loop, same tests; the read that raises is
    the last one recorded. *)
Equations? binsearch_left_start_reads (intervals : list Feature) (x lo hi : Z)
  : list Z by wf (Z.to_nat (hi - lo)) lt :=
  binsearch_left_start_reads intervals x lo hi with Z_lt_dec lo hi := {
    | right _ := []
    | left _ :=
        let mid := (lo + hi) `div` 2 in
        match py_getitem intervals mid with
        | Raise _ => [mid]
        | Return f =>
            if start f <? x
            then mid :: binsearch_left_start_reads intervals x (mid + 1) hi
            else mid :: binsearch_left_start_reads intervals x lo mid
        end }.
Proof.
  all: pose proof (Z.div_mod (lo + hi) 2 ltac:(lia));
    pose proof (Z.mod_pos_bound (lo + hi) 2 ltac:(lia)); lia.
Qed.

Equations? binsearch_right_end_reads (intervals : list Feature) (x lo hi : Z)
  : list Z by wf (Z.to_nat (hi - lo)) lt :=
  binsearch_right_end_reads intervals x lo hi with Z_lt_dec lo hi := {
    | right _ := []
    | left _ :=
        let mid := (lo + hi) `div` 2 in
        match py_getitem intervals mid with
        | Raise _ => [mid]
        | Return f =>
            if x <? start f
            then mid :: binsearch_right_end_reads intervals x lo mid
            else mid :: binsearch_right_end_reads intervals x (mid + 1) hi
        end }.
Proof.
  all: pose proof (Z.div_mod (lo + hi) 2 ltac:(lia));
    pose proof (Z.mod_pos_bound (lo + hi) 2 ltac:(lia)); lia.
Qed.

(** ** Intersecter *)

Module Intersecter.

(** [self]: the per-chromosome lists and the longest feature length. *)
Record t : Type := mk {
  intervals : gmap (option string) (list Feature);
  max_len : Z
}.

(** The methods read and write [self] and may raise; [left] calls itself,
    and its call depth is counted: [None] is a call chain deeper than the
    given number of frames. *)
Definition M (A : Type) : Type := t -> option (outcome A * t).

Definition ret {A : Type} (a : A) : M A :=
  fun self => Some (Return a, self).

Definition bind {A B : Type} (m : M A) (k : A -> M B) : M B :=
  fun self =>
    match m self with
    | None => None
    | Some (Raise e, self') => Some (Raise e, self')
    | Some (Return a, self') => k a self'
    end.

Definition lift {A : Type} (o : outcome A) : M A :=
  fun self => Some (o, self).

Definition too_deep {A : Type} : M A :=
  fun _ => None.

Notation "'let!' x ':=' m 'in' k" := (bind m (fun x => k))
  (at level 10, x name, m at level 200, k at level 200, only parsing).

(** [d[k]] on a [defaultdict(list)]: a missing key is first bound to a
    new empty list. *)
Definition defaultdict_getitem (d : gmap (option string) (list Feature))
    (k : option string) : list Feature * gmap (option string) (list Feature) :=
  match d !! k with
  | Some l => (l, d)
  | None => ([], <[k := []]> d)
  end.

(** [self.intervals[k]]. *)
Definition self_intervals (k : option string) : M (list Feature) :=
  fun self =>
    let '(l, d) := defaultdict_getitem (intervals self) k in
    Some (Return l, mk d (max_len self)).

(** [self.max_len]. *)
Definition self_max_len : M Z :=
  fun self => Some (Return (max_len self), self).

(** [__init__]: group by chromosome in input order, sort every group by
    start, take the longest length of the whole input, at least 1. *)
Definition init (ivs : list Feature) : outcome t :=
  let d := foldl (fun d iv =>
                    let '(l, d') := defaultdict_getitem d (chrom iv) in
                    <[chrom iv := l ++ [iv]]> d') ∅ ivs in
  let d := py_sort_key start <$> d in
  let? m := py_max (map (fun i => end_ i - start i) ivs) in
  Return (mk d (if m <? 1 then 1 else m)).

(** *** Loops of the methods *)

(** The [for i in range(n, len(results))] scan of [left]: [Some] is the
    value of the [return] inside the loop, [None] is falling out of it. *)
Fixpoint left_scan (f : Feature) (results : list Feature) (range : list Z)
  : outcome (option (list Feature)) :=
  match range with
  | [] => Return None
  | i :: range' =>
      let? a := py_getitem results (i - 1) in
      let? b := py_getitem results i in
      if negb (distance f a =? distance f b)
      then Return (Some (py_slice_to results i))
      else left_scan f results range'
  end.

(** The [while iright < ilen] loop of [right]. *)
Equations? right_loop (intervals : list Feature) (f : Feature)
    (n ilen iright : Z) (results : list Feature)
  : outcome (list Feature) by wf (Z.to_nat (ilen - iright)) lt :=
  right_loop intervals f n ilen iright results with Z_lt_dec iright ilen := {
    | right _ := Return results
    | left _ :=
        let i := len results in
        let? gap :=
          (if n <? i then
             let? a := py_getitem results (i - 1) in
             let? b := py_getitem results (i - 2) in
             Return (negb (distance f a =? distance f b))
           else Return false) in
        if gap then Return (py_slice_to results (i - 1))
        else
          let? other := py_getitem intervals iright in
          if distance other f =? 0
          then right_loop intervals f n ilen (iright + 1) results
          else right_loop intervals f n ilen (iright + 1) (results ++ [other]) }.
Proof. all: lia. Qed.

(** [[ff[1] for ff in sorted([(f, iv) for iv in intervals[ileft:iright]],
    cmp=_dist_compare)]]. *)
Definition by_distance (f : Feature) (intervals : list Feature)
    (ileft iright : Z) : list Feature :=
  map snd (py_sort_cmp _dist_compare
             (map (fun iv => (f, iv)) (py_slice intervals ileft iright))).

(** The [while ileft > 0 or iright < ilen] loop of [knearest]. *)
Equations? knearest_loop (intervals : list Feature) (f : Feature)
    (k ilen ileft iright : Z)
  : outcome (list Feature)
  by wf (Z.to_nat ileft + Z.to_nat (ilen - iright))%nat lt :=
  knearest_loop intervals f k ilen ileft iright
    with decide (0 < ileft \/ iright < ilen) := {
    | right _ := Return (by_distance f intervals ileft iright)
    | left _ :=
        let? cut :=
          (if k <=? iright - ileft then
             let? a := py_getitem intervals iright in
             let? b := py_getitem intervals ileft in
             Return (negb (distance f a =? distance f b))
           else Return false) in
        if cut then Return (by_distance f intervals ileft iright)
        else
          let ileft1 := ileft - 1 in
          let iright1 := iright + 1 in
          let ileft2 := if ileft1 =? -1 then 0 else ileft1 in
          let iright2 := if ilen <? iright1 then ilen else iright1 in
          knearest_loop intervals f k ilen ileft2 iright2 }.
Proof.
  subst ileft2 iright2 ileft1 iright1.
  destruct (Z.eqb_spec (ileft - 1) (-1)), (Z.ltb_spec ilen (iright + 1)); lia.
Qed.

(** *** Methods *)

Definition find (start end_ : Z) (chrom : option string) : M (list Feature) :=
  let! intervals := self_intervals chrom in
  let ilen := len intervals in
  let! max_len := self_max_len in
  let! ileft := lift (binsearch_left_start intervals (start - max_len) 0 ilen) in
  let! iright := lift (binsearch_right_end intervals end_ ileft ilen) in
  let! query := lift (Feature_range start end_) in
  ret (filter (fun f => distance f query = 0) (py_slice intervals ileft iright)).

Fixpoint left (depth : nat) (f : Feature) (n : Z) : M (list Feature) :=
  match depth with
  | O => too_deep
  | S depth' =>
      let! intervals := self_intervals (chrom f) in
      let! found := lift (binsearch_left_start intervals (start f) 0 (len intervals)) in
      let iright := found + 1 in
      let! max_len := self_max_len in
      let! ileft :=
        lift (binsearch_left_start intervals (start f - max_len - 1) 0 (iright - 1)) in
      let results :=
        map (fun other => (other, f))
          (filter (fun other => end_ other < start f /\ distance f other <> 0)
             (py_slice intervals ileft iright)) in
      let results := py_sort_cmp _dist_compare results in
      let results := map fst results in
      if len results =? n then ret results
      else
        let! early := lift (left_scan f results (py_range n (len results))) in
        match early with
        | Some prefix => ret prefix
        | None =>
            if ileft =? 0 then ret results
            else if negb (len results =? 0) then
              let! last := lift (py_getitem results (-1)) in
              let! f' := lift (Feature_init (start last) (end_ f) 0 "" None None) in
              let! more := left depth' f' (n - len results) in
              ret (results ++ more)
            else
              let! f' := lift (Feature_init (start f - 1) (end_ f) 0 "" None None) in
              let! more := left depth' f' (n - len results) in
              ret (results ++ more)
        end
  end.

Definition right (f : Feature) (n : Z) : M (list Feature) :=
  let! intervals := self_intervals (chrom f) in
  let ilen := len intervals in
  let! iright := lift (binsearch_right_end intervals (end_ f) 0 ilen) in
  lift (right_loop intervals f n ilen iright []).

Definition upstream (depth : nat) (f : Feature) (n : Z) : M (list Feature) :=
  if strand f =? -1 then right f n
  else left depth f n.

Definition downstream (depth : nat) (f : Feature) (n : Z) : M (list Feature) :=
  if strand f =? -1 then left depth f n
  else right f n.

(** The two ways of calling [knearest]: with a feature, or with [start],
    [end] and [chrom]. *)
Inductive query : Type :=
| ByFeature (f : Feature)
| ByRange (start end_ : Z) (chrom : option string).

Definition knearest (q : query) (k : Z) (inclusive : bool) : M (list Feature) :=
  let! f := match q with
            | ByRange start end_ chrom =>
                lift (Feature_init start end_ 0 "" None chrom)
            | ByFeature f => ret f
            end in
  let! intervals := self_intervals (chrom f) in
  let ilen := len intervals in
  let! max_len := self_max_len in
  let! ileft := lift (binsearch_left_start intervals (start f - max_len) 0 ilen) in
  let! iright := lift (binsearch_right_end intervals (end_ f) ileft ilen) in
  let! _ := lift (py_div 1 0) in
  lift (knearest_loop intervals f k ilen ileft iright).

End Intersecter.

(** ** Example indexes *)

(** [F start end strand] is [Feature(start, end, strand)]. *)
Definition F (start end_ strand : Z) : Feature :=
  mkFeature start end_ strand "" None None.

(** The features of the doctest of [Intersecter], and the index they
    build. *)
Definition doc_features : list Feature :=
  [F 0 10 (-1); F 3 7 1; F 3 40 (-1); F 13 50 1].

Definition doc_intersecter : Intersecter.t :=
  Intersecter.mk {[ None := doc_features ]} 37.

(** Two features tied at distance 5 from position 100, one nearer that
    starts further left, one further away. *)
Definition tie_features : list Feature :=
  [F 88 98 0; F 89 95 0; F 89 89 0; F 90 95 0].

(** An index of one feature, [(0, 0)]. *)
Definition lone_intersecter : Intersecter.t :=
  Intersecter.mk {[ None := [F 0 0 0] ]} 1.

(** ** Vocabulary of the properties *)

(** The invariant of a constructed [Feature]. *)
Definition Feature_valid (f : Feature) : Prop := start f <= end_ f.

Definition sorted_by_start (l : list Feature) : Prop :=
  StronglySorted (fun a b => start a <= start b) l.

(** The list stored under a key; a missing key stores nothing. *)
Definition partition (self : Intersecter.t) (k : option string) : list Feature :=
  default [] (Intersecter.intervals self !! k).

(** What a call returned or raised, without the state it left. *)
Definition result_of {A : Type} (r : option (outcome A * Intersecter.t))
  : option (outcome A) :=
  fst <$> r.

(** What construction establishes and every query relies on. *)
Definition Intersecter_ok (self : Intersecter.t) : Prop :=
  1 <= Intersecter.max_len self /\
  forall k, sorted_by_start (partition self k) /\
            Forall (fun f => end_ f - start f <= Intersecter.max_len self)
              (partition self k).

Definition stores_valid (self : Intersecter.t) : Prop :=
  forall k, Forall Feature_valid (partition self k).

(** [self'] is [self] up to keys that were missing and are now bound to
    the empty list: [max_len] and every stored list are the same. *)
Definition same_store (self self' : Intersecter.t) : Prop :=
  Intersecter.max_len self' = Intersecter.max_len self /\
  forall k,
    Intersecter.intervals self' !! k = Intersecter.intervals self !! k \/
    (Intersecter.intervals self !! k = None /\
     Intersecter.intervals self' !! k = Some []).

(** The feature a [knearest] call is about, when its arguments describe
    one. *)
Definition query_feature (q : Intersecter.query) : Feature :=
  match q with
  | Intersecter.ByFeature f => f
  | Intersecter.ByRange s e c => mkFeature s e 0 "" None c
  end.

Definition query_valid (q : Intersecter.query) : Prop :=
  match q with
  | Intersecter.ByFeature _ => True
  | Intersecter.ByRange s e _ => s <= e
  end.

(** [m] leaves in place everything stored, whatever it returns or raises. *)
Definition keeps_store {A : Type} (m : Intersecter.M A) : Prop :=
  forall self r self', m self = Some (r, self') -> same_store self self'.

(** The sorted results of one window, and the query of the recursive
    call, named so that a call of [left] can be followed step by step. *)
Definition left_window (f : Feature) (l : list Feature) (a b : Z) : list Feature :=
  py_sort_key (fun other => distance other f)
    (filter (fun other => end_ other < start f /\ distance f other <> 0)
       (py_slice l a b)).

Definition left_next (f : Feature) (results : list Feature) : outcome Feature :=
  if negb (len results =? 0) then
    let? last := py_getitem results (-1) in
    Feature_init (start last) (end_ f) 0 "" None None
  else Feature_init (start f - 1) (end_ f) 0 "" None None.

(** What [left] promises about its result, stated on the end positions:
    every feature ends before [f] starts and the ends never increase. *)
Definition left_post (f : Feature) (res : list Feature) : Prop :=
  Forall (fun x => end_ x < start f /\ Feature_valid x) res /\
  StronglySorted (fun x y => end_ y <= end_ x) res.

Definition right_post (f : Feature) (res : list Feature) : Prop :=
  Forall (fun x => end_ f < start x) res /\ sorted_by_start res.

(** Every start in the store is at least [m]. *)
Definition starts_from (m : Z) (self : Intersecter.t) : Prop :=
  forall k, Forall (fun x => m <= start x) (partition self k).

(** The bound asked of [left]: the number of frames a call needs is
    bounded in terms of the size of the partition it searches. *)
Definition left_bounded_by_partition_size : Prop :=
  exists bound : nat -> nat,
    forall ivs self f n,
      Intersecter.init ivs = Return self ->
      Forall Feature_valid ivs -> Feature_valid f -> 1 <= n ->
      exists r self',
        Intersecter.left (bound (length (partition self (chrom f)))) f n self =
          Some (r, self').

(** Two states with the same [max_len] and the same list under every
    key, a key bound to the empty list counting as missing. *)
Definition store_equiv (self self' : Intersecter.t) : Prop :=
  Intersecter.max_len self' = Intersecter.max_len self /\
  forall k, partition self' k = partition self k.

(** [m] gives the same result, and equivalent states, from equivalent
    states. *)
Definition same_answers {A : Type} (m : Intersecter.M A) : Prop :=
  forall self self', store_equiv self self' ->
    match m self, m self' with
    | Some (r, t), Some (r', t') => r = r' /\ store_equiv t t'
    | None, None => True
    | _, _ => False
    end.

(** The stored features that start after [f] ends, in stored order. *)
Definition rights (f : Feature) (l : list Feature) : list Feature :=
  filter (fun x => end_ f < start x) l.

(** No two neighbours among positions [n - 1 .. m - 1] of [R] differ in
    their distance from [f]. *)
Definition tied (f : Feature) (R : list Feature) (n : Z) (m : nat) : Prop :=
  forall j a b, n <= Z.of_nat j -> (j < m)%nat ->
    R !! j = Some a -> R !! (j - 1)%nat = Some b -> distance f a = distance f b.

(** What [right] returns, as a cut of [R], the features to the right. *)
Definition right_cut (f : Feature) (R : list Feature) (n : Z)
    (res : list Feature) (m : nat) : Prop :=
  res = take m R /\ (m <= length R)%nat /\
  tied f R n (min m (length R - 1)) /\
  ((m < length R)%nat ->
   n <= Z.of_nat m /\ (m + 1 < length R)%nat /\
   exists a b, R !! m = Some a /\ R !! (m - 1)%nat = Some b /\
               distance f a <> distance f b).

(** The features stored in [l] that end before [f] starts, nearest
    first, in stored order among those at the same distance. *)
Definition lefts (f : Feature) (l : list Feature) : list Feature :=
  py_sort_key (fun other => distance other f) (filter (fun x => end_ x < start f) l).

(** * Properties *)

(** ** distance *)

Lemma distance_nonneg (a b : Feature) : 0 <= distance a b.
Proof.
  unfold distance.
  destruct (Z.ltb_spec (end_ a) (start b)); [lia|].
  destruct (Z.ltb_spec (end_ b) (start a)); lia.
Qed.

Lemma distance_sym (a b : Feature) :
  Feature_valid a -> Feature_valid b -> distance a b = distance b a.
Proof.
  unfold Feature_valid, distance. intros Ha Hb.
  destruct (Z.ltb_spec (end_ a) (start b)), (Z.ltb_spec (end_ b) (start a)); lia.
Qed.

Lemma distance_left_of (f x : Feature) :
  Feature_valid f -> Feature_valid x -> end_ x < start f ->
  distance f x = start f - end_ x.
Proof.
  unfold Feature_valid, distance. intros Hf Hx Hlt.
  destruct (Z.ltb_spec (end_ f) (start x)), (Z.ltb_spec (end_ x) (start f)); lia.
Qed.

Lemma distance_right_of (f x : Feature) :
  end_ f < start x -> distance f x = start x - end_ f.
Proof.
  unfold distance. intros Hlt.
  destruct (Z.ltb_spec (end_ f) (start x)); lia.
Qed.

Lemma Feature_init_valid s e st nm i c f :
  Feature_init s e st nm i c = Return f ->
  Feature_valid f /\ start f = s /\ end_ f = e /\ chrom f = c.
Proof.
  unfold Feature_init, Feature_valid.
  destruct (Z.leb_spec s e); [|discriminate].
  intros [= <-]. simpl. done.
Qed.

(** C10. For features [a] and [b] (each with [start <= end], as the
    constructor asserts), [distance a b = distance b a]; the distance is
    never negative; it is zero exactly when neither range ends before the
    other starts; and otherwise it is the gap between the closer edges. *)
Theorem distance_spec (a b : Feature) :
  Feature_valid a -> Feature_valid b ->
  distance a b = distance b a /\
  0 <= distance a b /\
  (distance a b = 0 <-> ~ end_ a < start b /\ ~ end_ b < start a) /\
  (end_ a < start b -> distance a b = start b - end_ a) /\
  (end_ b < start a -> distance a b = start a - end_ b).
Proof.
  intros Ha Hb. split; [by apply distance_sym|].
  split; [apply distance_nonneg|].
  unfold Feature_valid, distance in *.
  destruct (Z.ltb_spec (end_ a) (start b)), (Z.ltb_spec (end_ b) (start a)); lia.
Qed.

Lemma distance_spec_witness :
  distance (F 1 2 0) (F 12 13 0) = distance (F 12 13 0) (F 1 2 0) /\
  0 <= distance (F 1 2 0) (F 12 13 0) /\
  (distance (F 1 2 0) (F 12 13 0) = 0 <->
     ~ end_ (F 1 2 0) < start (F 12 13 0) /\ ~ end_ (F 12 13 0) < start (F 1 2 0)) /\
  (end_ (F 1 2 0) < start (F 12 13 0) ->
     distance (F 1 2 0) (F 12 13 0) = start (F 12 13 0) - end_ (F 1 2 0)) /\
  (end_ (F 12 13 0) < start (F 1 2 0) ->
     distance (F 1 2 0) (F 12 13 0) = start (F 1 2 0) - end_ (F 12 13 0)).
Proof.
  apply (distance_spec (F 1 2 0) (F 12 13 0)); unfold Feature_valid; simpl; lia.
Defined.

Example distance_doc_1 : distance (F 1 2 0) (F 12 13 0) = 10.
Proof. reflexivity. Qed.

Example distance_doc_2 : distance (F 1 2 0) (F 2 3 0) = 0.
Proof. reflexivity. Qed.

Example distance_doc_3 : distance (F 1 100 0) (F 20 30 0) = 0.
Proof. reflexivity. Qed.

(** ** Python lists *)

Lemma len_nonneg {A : Type} (l : list A) : 0 <= len l.
Proof. unfold len. lia. Qed.

Lemma py_getitem_in_range {A : Type} (l : list A) (i : Z) :
  0 <= i < len l ->
  exists a, l !! Z.to_nat i = Some a /\ py_getitem l i = Return a.
Proof.
  intros Hi. unfold py_getitem.
  destruct (Z.ltb_spec i 0); [lia|].
  destruct (Z.ltb_spec i 0); [lia|].
  destruct (Z.leb_spec (len l) i); [lia|]. simpl.
  destruct (l !! Z.to_nat i) as [a|] eqn:Hl; [eauto|].
  apply lookup_ge_None in Hl. unfold len in *. lia.
Qed.

Lemma sorted_by_start_lookup (l : list Feature) (i j : nat) (a b : Feature) :
  sorted_by_start l -> (i <= j)%nat ->
  l !! i = Some a -> l !! j = Some b -> start a <= start b.
Proof.
  intros Hs. revert i j. induction Hs as [|x l Hs IH Hx]; intros i j Hij Ha Hb.
  - by rewrite lookup_nil in Ha.
  - destruct i as [|i], j as [|j]; simpl in *; try lia.
    + injection Ha as <-. injection Hb as <-. lia.
    + injection Ha as <-. rewrite Forall_forall in Hx.
      apply Hx. by eapply list_elem_of_lookup_2.
    + eapply IH; [|done..]. lia.
Qed.

(** ** The binary searches *)

Lemma midpoint_bounds (lo hi : Z) :
  lo < hi -> lo <= (lo + hi) `div` 2 < hi.
Proof.
  intros H. pose proof (Z.div_mod (lo + hi) 2 ltac:(lia)).
  pose proof (Z.mod_pos_bound (lo + hi) 2 ltac:(lia)). lia.
Qed.

Lemma binsearch_left_start_eq (intervals : list Feature) (x lo hi : Z) :
  binsearch_left_start intervals x lo hi =
  if decide (lo < hi) then
    let mid := (lo + hi) `div` 2 in
    let? f := py_getitem intervals mid in
    if start f <? x then binsearch_left_start intervals x (mid + 1) hi
    else binsearch_left_start intervals x lo mid
  else Return lo.
Proof.
  simp binsearch_left_start.
  destruct (Z_lt_dec lo hi); case_decide; (done || lia).
Qed.

Lemma binsearch_right_end_eq (intervals : list Feature) (x lo hi : Z) :
  binsearch_right_end intervals x lo hi =
  if decide (lo < hi) then
    let mid := (lo + hi) `div` 2 in
    let? f := py_getitem intervals mid in
    if x <? start f then binsearch_right_end intervals x lo mid
    else binsearch_right_end intervals x (mid + 1) hi
  else Return lo.
Proof.
  simp binsearch_right_end.
  destruct (Z_lt_dec lo hi); case_decide; (done || lia).
Qed.

Lemma binsearch_left_start_reads_eq (intervals : list Feature) (x lo hi : Z) :
  binsearch_left_start_reads intervals x lo hi =
  if decide (lo < hi) then
    let mid := (lo + hi) `div` 2 in
    match py_getitem intervals mid with
    | Raise _ => [mid]
    | Return f =>
        if start f <? x
        then mid :: binsearch_left_start_reads intervals x (mid + 1) hi
        else mid :: binsearch_left_start_reads intervals x lo mid
    end
  else [].
Proof.
  simp binsearch_left_start_reads.
  destruct (Z_lt_dec lo hi); case_decide; (done || lia).
Qed.

Lemma binsearch_right_end_reads_eq (intervals : list Feature) (x lo hi : Z) :
  binsearch_right_end_reads intervals x lo hi =
  if decide (lo < hi) then
    let mid := (lo + hi) `div` 2 in
    match py_getitem intervals mid with
    | Raise _ => [mid]
    | Return f =>
        if x <? start f
        then mid :: binsearch_right_end_reads intervals x lo mid
        else mid :: binsearch_right_end_reads intervals x (mid + 1) hi
    end
  else [].
Proof.
  simp binsearch_right_end_reads.
  destruct (Z_lt_dec lo hi); case_decide; (done || lia).
Qed.

(** One turn of either loop, set up for an induction on [hi - lo]: the
    midpoint is in range and its read succeeds. *)
Ltac binsearch_turn lo hi intervals f Hf :=
  let Hmid := fresh "Hmid" in
  let Hget := fresh "Hget" in
  pose proof (midpoint_bounds lo hi ltac:(lia)) as Hmid;
  destruct (py_getitem_in_range intervals ((lo + hi) `div` 2) ltac:(lia))
    as (f & Hf & Hget);
  simpl; rewrite Hget; simpl.

Lemma binsearch_left_start_sorted (intervals : list Feature) (x lo hi : Z) :
  sorted_by_start intervals -> 0 <= lo <= hi -> hi <= len intervals ->
  exists i, binsearch_left_start intervals x lo hi = Return i /\
    lo <= i <= hi /\
    (forall j f, lo <= j < i -> intervals !! Z.to_nat j = Some f -> start f < x) /\
    (forall j f, i <= j < hi -> intervals !! Z.to_nat j = Some f -> x <= start f).
Proof.
  intros Hs. remember (Z.to_nat (hi - lo)) as m eqn:Hm.
  revert lo hi Hm. induction (lt_wf m) as [m _ IH]. intros lo hi -> Hlo Hhi.
  rewrite binsearch_left_start_eq. case_decide as Hlt.
  - binsearch_turn lo hi intervals f Hf.
    destruct (Z.ltb_spec (start f) x) as [Hfx|Hfx].
    + edestruct (IH (Z.to_nat (hi - ((lo + hi) `div` 2 + 1)))) as (i & -> & Hi & Hbelow & Habove);
        [lia|reflexivity|lia|lia|].
      exists i. split; [done|]. split; [lia|]. split; [|done].
      intros j g Hj Hg. destruct (decide (j <= (lo + hi) `div` 2)) as [Hle|Hgt].
      * pose proof (sorted_by_start_lookup intervals (Z.to_nat j)
                      (Z.to_nat ((lo + hi) `div` 2)) g f Hs ltac:(lia) Hg Hf). lia.
      * apply (Hbelow j); [lia|done].
    + edestruct (IH (Z.to_nat ((lo + hi) `div` 2 - lo))) as (i & -> & Hi & Hbelow & Habove);
        [lia|reflexivity|lia|lia|].
      exists i. split; [done|]. split; [lia|]. split; [done|].
      intros j g Hj Hg. destruct (decide (j < (lo + hi) `div` 2)) as [Hle|Hgt].
      * apply (Habove j); [lia|done].
      * pose proof (sorted_by_start_lookup intervals (Z.to_nat ((lo + hi) `div` 2))
                      (Z.to_nat j) f g Hs ltac:(lia) Hf Hg). lia.
  - exists lo. split; [done|]. split; [lia|]. split; intros; lia.
Qed.

Lemma binsearch_right_end_sorted (intervals : list Feature) (x lo hi : Z) :
  sorted_by_start intervals -> 0 <= lo <= hi -> hi <= len intervals ->
  exists i, binsearch_right_end intervals x lo hi = Return i /\
    lo <= i <= hi /\
    (forall j f, lo <= j < i -> intervals !! Z.to_nat j = Some f -> start f <= x) /\
    (forall j f, i <= j < hi -> intervals !! Z.to_nat j = Some f -> x < start f).
Proof.
  intros Hs. remember (Z.to_nat (hi - lo)) as m eqn:Hm.
  revert lo hi Hm. induction (lt_wf m) as [m _ IH]. intros lo hi -> Hlo Hhi.
  rewrite binsearch_right_end_eq. case_decide as Hlt.
  - binsearch_turn lo hi intervals f Hf.
    destruct (Z.ltb_spec x (start f)) as [Hfx|Hfx].
    + edestruct (IH (Z.to_nat ((lo + hi) `div` 2 - lo))) as (i & -> & Hi & Hbelow & Habove);
        [lia|reflexivity|lia|lia|].
      exists i. split; [done|]. split; [lia|]. split; [done|].
      intros j g Hj Hg. destruct (decide (j < (lo + hi) `div` 2)) as [Hle|Hgt].
      * apply (Habove j); [lia|done].
      * pose proof (sorted_by_start_lookup intervals (Z.to_nat ((lo + hi) `div` 2))
                      (Z.to_nat j) f g Hs ltac:(lia) Hf Hg). lia.
    + edestruct (IH (Z.to_nat (hi - ((lo + hi) `div` 2 + 1)))) as (i & -> & Hi & Hbelow & Habove);
        [lia|reflexivity|lia|lia|].
      exists i. split; [done|]. split; [lia|]. split; [|done].
      intros j g Hj Hg. destruct (decide (j <= (lo + hi) `div` 2)) as [Hle|Hgt].
      * pose proof (sorted_by_start_lookup intervals (Z.to_nat j)
                      (Z.to_nat ((lo + hi) `div` 2)) g f Hs ltac:(lia) Hg Hf). lia.
      * apply (Hbelow j); [lia|done].
  - exists lo. split; [done|]. split; [lia|]. split; intros; lia.
Qed.

(** Without any order on the list the searches still end inside the
    window they were given, provided the window lies in the list. *)
Lemma binsearch_left_start_bounds (intervals : list Feature) (x lo hi : Z) :
  0 <= lo <= hi -> hi <= len intervals ->
  exists i, binsearch_left_start intervals x lo hi = Return i /\ lo <= i <= hi.
Proof.
  remember (Z.to_nat (hi - lo)) as m eqn:Hm.
  revert lo hi Hm. induction (lt_wf m) as [m _ IH]. intros lo hi -> Hlo Hhi.
  rewrite binsearch_left_start_eq. case_decide as Hlt.
  - binsearch_turn lo hi intervals f Hf.
    destruct (start f <? x).
    + edestruct (IH (Z.to_nat (hi - ((lo + hi) `div` 2 + 1)))) as (i & -> & Hi);
        [lia|reflexivity|lia|lia|].
      exists i. split; [done|lia].
    + edestruct (IH (Z.to_nat ((lo + hi) `div` 2 - lo))) as (i & -> & Hi);
        [lia|reflexivity|lia|lia|].
      exists i. split; [done|lia].
  - exists lo. split; [done|lia].
Qed.

Lemma binsearch_right_end_bounds (intervals : list Feature) (x lo hi : Z) :
  0 <= lo <= hi -> hi <= len intervals ->
  exists i, binsearch_right_end intervals x lo hi = Return i /\ lo <= i <= hi.
Proof.
  remember (Z.to_nat (hi - lo)) as m eqn:Hm.
  revert lo hi Hm. induction (lt_wf m) as [m _ IH]. intros lo hi -> Hlo Hhi.
  rewrite binsearch_right_end_eq. case_decide as Hlt.
  - binsearch_turn lo hi intervals f Hf.
    destruct (x <? start f).
    + edestruct (IH (Z.to_nat ((lo + hi) `div` 2 - lo))) as (i & -> & Hi);
        [lia|reflexivity|lia|lia|].
      exists i. split; [done|lia].
    + edestruct (IH (Z.to_nat (hi - ((lo + hi) `div` 2 + 1)))) as (i & -> & Hi);
        [lia|reflexivity|lia|lia|].
      exists i. split; [done|lia].
  - exists lo. split; [done|lia].
Qed.

Lemma binsearch_left_start_reads_in_window (intervals : list Feature) (x lo hi : Z) :
  0 <= lo <= hi -> hi <= len intervals ->
  Forall (fun mid => lo <= mid < hi) (binsearch_left_start_reads intervals x lo hi).
Proof.
  remember (Z.to_nat (hi - lo)) as m eqn:Hm.
  revert lo hi Hm. induction (lt_wf m) as [m _ IH]. intros lo hi -> Hlo Hhi.
  rewrite binsearch_left_start_reads_eq. case_decide as Hlt; [|constructor].
  binsearch_turn lo hi intervals f Hf.
  destruct (start f <? x); constructor; try lia.
  - eapply Forall_impl; [eapply (IH _ ltac:(shelve) _ _ eq_refl); lia|].
    simpl. intros; lia.
  - eapply Forall_impl; [eapply (IH _ ltac:(shelve) _ _ eq_refl); lia|].
    simpl. intros; lia.
  Unshelve. all: lia.
Qed.

Lemma binsearch_right_end_reads_in_window (intervals : list Feature) (x lo hi : Z) :
  0 <= lo <= hi -> hi <= len intervals ->
  Forall (fun mid => lo <= mid < hi) (binsearch_right_end_reads intervals x lo hi).
Proof.
  remember (Z.to_nat (hi - lo)) as m eqn:Hm.
  revert lo hi Hm. induction (lt_wf m) as [m _ IH]. intros lo hi -> Hlo Hhi.
  rewrite binsearch_right_end_reads_eq. case_decide as Hlt; [|constructor].
  binsearch_turn lo hi intervals f Hf.
  destruct (x <? start f); constructor; try lia.
  - eapply Forall_impl; [eapply (IH _ ltac:(shelve) _ _ eq_refl); lia|].
    simpl. intros; lia.
  - eapply Forall_impl; [eapply (IH _ ltac:(shelve) _ _ eq_refl); lia|].
    simpl. intros; lia.
  Unshelve. all: lia.
Qed.

(** C8. On a list sorted by ascending start and a window
    [0 <= lo <= hi <= len seq], [binsearch_left_start] returns the index
    [i] of [lo..hi] that splits the window into starts below [x] (before
    [i]) and starts at least [x] (from [i] on): the leftmost index whose
    start is [>= x], or [hi] when there is none.  [binsearch_right_end]
    does the same for starts [<= x] and starts [> x].  Both read the list
    only at positions inside the window, the first of them the floored
    midpoint [(lo + hi) div 2]. *)
Theorem binsearch_spec (seq : list Feature) (x lo hi : Z) :
  sorted_by_start seq -> 0 <= lo -> lo <= hi -> hi <= len seq ->
  (exists i, binsearch_left_start seq x lo hi = Return i /\
     lo <= i <= hi /\
     (forall j f, lo <= j < i -> seq !! Z.to_nat j = Some f -> start f < x) /\
     (forall j f, i <= j < hi -> seq !! Z.to_nat j = Some f -> x <= start f)) /\
  (exists i, binsearch_right_end seq x lo hi = Return i /\
     lo <= i <= hi /\
     (forall j f, lo <= j < i -> seq !! Z.to_nat j = Some f -> start f <= x) /\
     (forall j f, i <= j < hi -> seq !! Z.to_nat j = Some f -> x < start f)) /\
  Forall (fun mid => lo <= mid < hi /\ 0 <= mid < len seq)
    (binsearch_left_start_reads seq x lo hi) /\
  Forall (fun mid => lo <= mid < hi /\ 0 <= mid < len seq)
    (binsearch_right_end_reads seq x lo hi) /\
  (lo < hi ->
   head (binsearch_left_start_reads seq x lo hi) = Some ((lo + hi) `div` 2) /\
   head (binsearch_right_end_reads seq x lo hi) = Some ((lo + hi) `div` 2)).
Proof.
  intros Hs Hlo Hlh Hhi.
  split; [apply binsearch_left_start_sorted; (done || lia)|].
  split; [apply binsearch_right_end_sorted; (done || lia)|].
  split; [|split].
  - eapply Forall_impl;
      [apply binsearch_left_start_reads_in_window; lia|simpl; intros; lia].
  - eapply Forall_impl;
      [apply binsearch_right_end_reads_in_window; lia|simpl; intros; lia].
  - intros Hlt.
    rewrite binsearch_left_start_reads_eq, binsearch_right_end_reads_eq.
    case_decide; [|lia]. simpl.
    destruct (py_getitem seq _) as [f|e]; [|done].
    by destruct (start f <? x), (x <? start f).
Qed.

Lemma doc_features_sorted : sorted_by_start doc_features.
Proof.
  unfold sorted_by_start, doc_features.
  repeat (constructor; [|repeat constructor; simpl; lia]). constructor.
Qed.

Lemma binsearch_spec_witness :
  (exists i, binsearch_left_start doc_features 3 0 4 = Return i /\
     0 <= i <= 4 /\
     (forall j f, 0 <= j < i -> doc_features !! Z.to_nat j = Some f -> start f < 3) /\
     (forall j f, i <= j < 4 -> doc_features !! Z.to_nat j = Some f -> 3 <= start f)) /\
  (exists i, binsearch_right_end doc_features 3 0 4 = Return i /\
     0 <= i <= 4 /\
     (forall j f, 0 <= j < i -> doc_features !! Z.to_nat j = Some f -> start f <= 3) /\
     (forall j f, i <= j < 4 -> doc_features !! Z.to_nat j = Some f -> 3 < start f)) /\
  Forall (fun mid => 0 <= mid < 4 /\ 0 <= mid < len doc_features)
    (binsearch_left_start_reads doc_features 3 0 4) /\
  Forall (fun mid => 0 <= mid < 4 /\ 0 <= mid < len doc_features)
    (binsearch_right_end_reads doc_features 3 0 4) /\
  (0 < 4 ->
   head (binsearch_left_start_reads doc_features 3 0 4) = Some ((0 + 4) `div` 2) /\
   head (binsearch_right_end_reads doc_features 3 0 4) = Some ((0 + 4) `div` 2)).
Proof.
  apply (binsearch_spec doc_features 3 0 4).
  - exact doc_features_sorted.
  - lia.
  - lia.
  - vm_compute. discriminate.
Defined.

Example binsearch_left_start_doc : binsearch_left_start doc_features 3 0 4 = Return 1.
Proof. reflexivity. Qed.

Example binsearch_right_end_doc : binsearch_right_end doc_features 3 0 4 = Return 3.
Proof. reflexivity. Qed.

(** ** The sort *)

Section py_sort.
Context {A : Type}.
Implicit Types (lt : A -> A -> bool) (key : A -> Z) (l : list A).

Lemma py_insert_perm lt x l : py_insert lt x l ≡ₚ x :: l.
Proof.
  induction l as [|y l IH]; simpl; [done|].
  destruct (lt y x); [|done]. rewrite IH. apply Permutation_swap.
Qed.

Lemma py_sort_perm lt l : py_sort lt l ≡ₚ l.
Proof.
  induction l as [|x l IH]; simpl; [done|].
  by rewrite py_insert_perm, IH.
Qed.

Lemma py_sort_Forall lt (P : A -> Prop) l : Forall P l -> Forall P (py_sort lt l).
Proof. by rewrite py_sort_perm. Qed.

Lemma py_sort_ext lt lt' l :
  (forall a b, lt a b = lt' a b) -> py_sort lt l = py_sort lt' l.
Proof.
  intros Heq. induction l as [|x l IH]; simpl; [done|]. rewrite IH.
  generalize (py_sort lt' l). intros s.
  induction s as [|y s IHs]; simpl; [done|]. by rewrite Heq, IHs.
Qed.

Lemma py_insert_sorted key x l :
  StronglySorted (fun a b => key a <= key b) l ->
  StronglySorted (fun a b => key a <= key b) (py_insert (fun a b => key a <? key b) x l).
Proof.
  induction 1 as [|y l Hs IH Hy]; simpl.
  - repeat constructor.
  - destruct (Z.ltb_spec (key y) (key x)) as [Hlt|Hge].
    + constructor; [done|]. rewrite py_insert_perm. constructor; [lia|done].
    + constructor; [by constructor|].
      constructor; [done|]. eapply Forall_impl; [exact Hy|]. simpl. intros; lia.
Qed.

Lemma py_sort_key_sorted key l :
  StronglySorted (fun a b => key a <= key b) (py_sort_key key l).
Proof.
  unfold py_sort_key. induction l as [|x l IH]; simpl; [constructor|].
  by apply py_insert_sorted.
Qed.

(** Stability: the elements of one key keep their input order. *)
Lemma py_insert_stable key x l k :
  filter (fun a => key a = k) (py_insert (fun a b => key a <? key b) x l) =
  filter (fun a => key a = k) (x :: l).
Proof.
  induction l as [|y l IH]; simpl; [done|].
  destruct (Z.ltb_spec (key y) (key x)) as [Hlt|Hge]; [|done].
  rewrite !filter_cons in *. rewrite IH.
  destruct (decide (key y = k)), (decide (key x = k)); (done || lia).
Qed.

Lemma py_sort_key_stable key l k :
  filter (fun a => key a = k) (py_sort_key key l) = filter (fun a => key a = k) l.
Proof.
  unfold py_sort_key. induction l as [|x l IH]; simpl; [done|].
  rewrite py_insert_stable, !filter_cons, IH. done.
Qed.

End py_sort.

Lemma py_sort_key_map {A B : Type} (g : A -> B) (key : B -> Z) (l : list A) :
  py_sort_key key (map g l) = map g (py_sort_key (fun a => key (g a)) l).
Proof.
  unfold py_sort_key. induction l as [|x l IH]; simpl; [done|]. rewrite IH.
  generalize (py_sort (fun a b => key (g a) <? key (g b)) l). intros s.
  induction s as [|y s IHs]; simpl; [done|].
  destruct (key (g y) <? key (g x)); simpl; [by rewrite IHs|done].
Qed.

(** The decorate, sort, undecorate of [left] is a sort by distance to
    [f]. *)
Lemma sort_by_dist_compare (f : Feature) (l : list Feature) :
  map fst (py_sort_cmp _dist_compare (map (fun other => (other, f)) l)) =
  py_sort_key (fun other => distance other f) l.
Proof.
  unfold py_sort_cmp.
  rewrite (py_sort_ext _ (fun a b => distance a.1 a.2 <? distance b.1 b.2)).
  - change (py_sort _ (map ?g l)) with (py_sort_key (fun a => distance a.1 a.2) (map g l)).
    rewrite py_sort_key_map, map_map. simpl. apply map_id.
  - intros a b. unfold _dist_compare, py_cmp.
    destruct (Z.ltb_spec (distance a.1 a.2) (distance b.1 b.2)); [done|].
    by destruct (distance b.1 b.2 <? distance a.1 a.2).
Qed.

(** ** Construction *)

Lemma defaultdict_getitem_fst d k :
  (Intersecter.defaultdict_getitem d k).1 = default [] (d !! k).
Proof. unfold Intersecter.defaultdict_getitem. by destruct (d !! k). Qed.

Lemma defaultdict_getitem_snd d k k' :
  default [] ((Intersecter.defaultdict_getitem d k).2 !! k') = default [] (d !! k').
Proof.
  unfold Intersecter.defaultdict_getitem. destruct (d !! k) eqn:Hk; simpl; [done|].
  destruct (decide (k = k')) as [<-|Hne].
  - by rewrite lookup_insert_eq, Hk.
  - by rewrite lookup_insert_ne.
Qed.

Lemma group_by_chrom (ivs : list Feature) d k :
  default [] (foldl (fun d iv =>
                let '(l, d') := Intersecter.defaultdict_getitem d (chrom iv) in
                <[chrom iv := l ++ [iv]]> d') d ivs !! k) =
  default [] (d !! k) ++ filter (fun iv => chrom iv = k) ivs.
Proof.
  revert d. induction ivs as [|iv ivs IH]; intros d; simpl.
  - by rewrite app_nil_r.
  - rewrite IH, filter_cons.
    pose proof (defaultdict_getitem_fst d (chrom iv)) as H1.
    pose proof (defaultdict_getitem_snd d (chrom iv) k) as H2.
    destruct (Intersecter.defaultdict_getitem d (chrom iv)) as [l d']. simpl in *.
    destruct (decide (chrom iv = k)) as [<-|Hne].
    + rewrite lookup_insert_eq. simpl. by rewrite H1, <- app_assoc.
    + rewrite lookup_insert_ne by done. by rewrite H2.
Qed.

Lemma foldl_max_ge (x : Z) (l : list Z) :
  x <= foldl Z.max x l /\ Forall (fun y => y <= foldl Z.max x l) l /\
  (foldl Z.max x l = x \/ foldl Z.max x l ∈ l).
Proof.
  revert x. induction l as [|y l IH]; intros x; simpl.
  - split; [lia|]. split; [constructor|by left].
  - destruct (IH (Z.max x y)) as (H1 & H2 & H3).
    split; [lia|]. split; [constructor; [lia|done]|].
    destruct H3 as [H3|H3]; [|right; by constructor].
    rewrite H3. destruct (Z.max_spec x y) as [[? ->]|[? ->]]; [right; constructor|by left].
Qed.

(** What [__init__] builds from a non-empty input. *)
Lemma init_nonempty (ivs : list Feature) :
  ivs <> [] ->
  exists self, Intersecter.init ivs = Return self /\
    (forall k, partition self k =
               py_sort_key start (filter (fun iv => chrom iv = k) ivs)) /\
    1 <= Intersecter.max_len self /\
    Forall (fun iv => end_ iv - start iv <= Intersecter.max_len self) ivs /\
    (Intersecter.max_len self = 1 \/
     exists iv, iv ∈ ivs /\ Intersecter.max_len self = end_ iv - start iv).
Proof.
  intros Hne. unfold Intersecter.init.
  destruct ivs as [|iv0 ivs0] eqn:Hivs; [done|]. rewrite <- Hivs.
  assert (exists m, py_max (map (fun i => end_ i - start i) ivs) = Return m /\
            Forall (fun iv => end_ iv - start iv <= m) ivs /\
            exists iv, iv ∈ ivs /\ m = end_ iv - start iv) as (m & -> & Hall & Hex).
  { rewrite Hivs. simpl. eexists. split; [done|].
    destruct (foldl_max_ge (end_ iv0 - start iv0)
                (map (fun i => end_ i - start i) ivs0)) as (H1 & H2 & H3).
    split.
    - constructor; [done|]. by rewrite Forall_map in H2.
    - destruct H3 as [H3|H3].
      + exists iv0. split; [constructor|done].
      + apply list_elem_of_fmap in H3 as (iv & Hiv & Hin).
        exists iv. split; [by constructor|done]. }
  simpl. eexists. split; [done|]. simpl. split; [|split; [|split]].
  - intros k. unfold partition. simpl. rewrite lookup_fmap.
    pose proof (group_by_chrom ivs ∅ k) as Hg. rewrite lookup_empty in Hg. simpl in Hg.
    destruct (foldl _ _ _ !! k) as [l|]; simpl in *; by rewrite <- Hg.
  - destruct (Z.ltb_spec m 1); lia.
  - eapply Forall_impl; [exact Hall|]. simpl. intros iv ?.
    destruct (Z.ltb_spec m 1); lia.
  - destruct (Z.ltb_spec m 1); [by left|right; done].
Qed.

Lemma Forall_filter_keep {A : Type} (P Q : A -> Prop) `{!forall x, Decision (Q x)}
    (l : list A) :
  Forall P l -> Forall P (filter Q l).
Proof.
  rewrite !Forall_forall. intros HP x Hx.
  apply list_elem_of_filter in Hx as [_ Hx]. by apply HP.
Qed.

(** C6. Construction from the empty collection does not succeed:
    [__init__] takes [max] of the list of lengths, which is empty, and
    raises [ValueError].  The specification asks for a successful
    construction with [max_len = 1], the value [__init__] has just
    assigned. *)
Theorem init_empty_raises : Intersecter.init [] = Raise ValueError.
Proof. reflexivity. Qed.

(** On every other input construction succeeds: each group is sorted by
    ascending start, holds the features of its chromosome, in input order
    for equal starts, and [max_len] is the longest length of the whole
    input, at least 1. *)
Theorem init_spec (ivs : list Feature) :
  ivs <> [] ->
  exists self, Intersecter.init ivs = Return self /\
    (forall k,
       sorted_by_start (partition self k) /\
       partition self k ≡ₚ filter (fun iv => chrom iv = k) ivs /\
       forall s, filter (fun f => start f = s) (partition self k) =
                 filter (fun f => start f = s) (filter (fun iv => chrom iv = k) ivs)) /\
    1 <= Intersecter.max_len self /\
    Forall (fun iv => end_ iv - start iv <= Intersecter.max_len self) ivs /\
    (Intersecter.max_len self = 1 \/
     exists iv, iv ∈ ivs /\ Intersecter.max_len self = end_ iv - start iv).
Proof.
  intros Hne. destruct (init_nonempty ivs Hne) as (self & Hinit & Hpart & Hrest).
  exists self. split; [done|]. split; [|done].
  intros k. rewrite Hpart. split; [apply py_sort_key_sorted|].
  split; [apply py_sort_perm|]. intros s. apply py_sort_key_stable.
Qed.

Example init_doc : Intersecter.init doc_features = Return doc_intersecter.
Proof. reflexivity. Qed.

(** ** The state of a constructed Intersecter *)

Lemma same_store_refl self : same_store self self.
Proof. split; [done|]. intros k. by left. Qed.

Lemma same_store_trans s1 s2 s3 :
  same_store s1 s2 -> same_store s2 s3 -> same_store s1 s3.
Proof.
  intros [H1 H2] [H3 H4]. split; [congruence|]. intros k.
  destruct (H2 k) as [E2|[E2 E2']], (H4 k) as [E4|[E4 E4']].
  - left. congruence.
  - right. split; congruence.
  - right. split; congruence.
  - congruence.
Qed.

Lemma same_store_partition s1 s2 k :
  same_store s1 s2 -> partition s2 k = partition s1 k.
Proof.
  intros [_ H]. unfold partition. destruct (H k) as [->|[-> ->]]; done.
Qed.

Lemma Intersecter_ok_same_store s1 s2 :
  same_store s1 s2 -> Intersecter_ok s1 -> Intersecter_ok s2.
Proof.
  intros Hs [H1 H2]. pose proof Hs as [Hm _]. split; [by rewrite Hm|].
  intros k. rewrite Hm, (same_store_partition _ _ _ Hs). apply H2.
Qed.

Lemma stores_valid_same_store s1 s2 :
  same_store s1 s2 -> stores_valid s1 -> stores_valid s2.
Proof. intros Hs H k. rewrite (same_store_partition _ _ _ Hs). apply H. Qed.

Lemma init_Return_nonempty ivs self :
  Intersecter.init ivs = Return self -> ivs <> [].
Proof. by intros H ->. Qed.

Lemma init_ok ivs self :
  Intersecter.init ivs = Return self -> Intersecter_ok self.
Proof.
  intros Hinit.
  destruct (init_nonempty ivs (init_Return_nonempty _ _ Hinit))
    as (self' & Hinit' & Hpart & Hone & Hlen & _).
  rewrite Hinit in Hinit'. injection Hinit' as <-.
  split; [done|]. intros k. rewrite Hpart.
  split; [apply py_sort_key_sorted|].
  by apply py_sort_Forall, Forall_filter_keep.
Qed.

Lemma init_valid ivs self :
  Intersecter.init ivs = Return self -> Forall Feature_valid ivs -> stores_valid self.
Proof.
  intros Hinit Hv k.
  destruct (init_nonempty ivs (init_Return_nonempty _ _ Hinit))
    as (self' & Hinit' & Hpart & _).
  rewrite Hinit in Hinit'. injection Hinit' as <-. rewrite Hpart.
  by apply py_sort_Forall, Forall_filter_keep.
Qed.

(** [self.intervals[k]] yields the stored list and may bind [k] to an
    empty list; nothing stored changes. *)
Lemma self_intervals_spec k self :
  exists self', Intersecter.self_intervals k self = Some (Return (partition self k), self') /\
    same_store self self'.
Proof.
  unfold Intersecter.self_intervals, Intersecter.defaultdict_getitem, partition.
  destruct (Intersecter.intervals self !! k) as [l|] eqn:Hk; simpl.
  - exists self. destruct self. split; [done|apply same_store_refl].
  - eexists. split; [done|]. split; [done|]. intros k'. simpl.
    destruct (decide (k = k')) as [<-|Hne].
    + right. by rewrite lookup_insert_eq.
    + left. by rewrite lookup_insert_ne.
Qed.

(** ** Slices *)

Lemma py_clamp_in_range (n i : Z) : 0 <= i <= n -> py_clamp n i = i.
Proof.
  intros H. unfold py_clamp.
  destruct (Z.ltb_spec i 0); [lia|].
  destruct (Z.ltb_spec i 0); [lia|].
  destruct (Z.ltb_spec n i); lia.
Qed.

Lemma py_slice_in_range {A : Type} (l : list A) (a b : Z) :
  0 <= a <= b -> b <= len l ->
  py_slice l a b = take (Z.to_nat (b - a)) (drop (Z.to_nat a) l).
Proof.
  intros Ha Hb. unfold py_slice. by rewrite !py_clamp_in_range by lia.
Qed.

Lemma py_slice_split {A : Type} (l : list A) (a b : Z) :
  0 <= a <= b -> b <= len l ->
  l = take (Z.to_nat a) l ++ py_slice l a b ++ drop (Z.to_nat b) l.
Proof.
  intros Ha Hb. rewrite py_slice_in_range by done.
  rewrite <- (take_drop (Z.to_nat a) l) at 1. f_equal.
  rewrite <- (take_drop (Z.to_nat (b - a)) (drop (Z.to_nat a) l)) at 1. f_equal.
  rewrite drop_drop. f_equal. lia.
Qed.

(** Whatever the bounds, a slice is a contiguous part of the list. *)
Lemma py_slice_sublist {A : Type} (l : list A) (a b : Z) :
  exists l1 l2, l = l1 ++ py_slice l a b ++ l2.
Proof.
  unfold py_slice. set (a' := Z.to_nat (py_clamp (len l) a)).
  set (c := Z.to_nat _).
  exists (take a' l), (drop c (drop a' l)).
  by rewrite take_drop, take_drop.
Qed.

Lemma py_slice_elem_of {A : Type} (l : list A) (a b : Z) (x : A) :
  x ∈ py_slice l a b -> x ∈ l.
Proof.
  destruct (py_slice_sublist l a b) as (l1 & l2 & Hl). intros Hx.
  rewrite Hl. set_solver.
Qed.

Lemma py_slice_to_prefix {A : Type} (l : list A) (b : Z) :
  py_slice_to l b `prefix_of` l.
Proof.
  unfold py_slice_to, py_slice.
  rewrite (py_clamp_in_range _ 0) by (pose proof (len_nonneg l); lia).
  simpl. apply prefix_take.
Qed.

Lemma filter_none {A : Type} (P : A -> Prop) `{!forall x, Decision (P x)} (l : list A) :
  Forall (fun x => ~ P x) l -> filter P l = [].
Proof.
  induction 1 as [|x l Hx _ IH]; [done|]. by rewrite filter_cons_False.
Qed.

(** ** find *)

Lemma find_returns (self : Intersecter.t) (qs qe : Z) (chrom : option string) :
  Intersecter_ok self -> qs <= qe ->
  exists self',
    Intersecter.find qs qe chrom self =
      Some (Return (filter (fun f => distance f (mkFeature qs qe 0 "" None None) = 0)
                      (partition self chrom)), self') /\
    same_store self self'.
Proof.
  intros [Hone Hok] Hse. destruct (Hok chrom) as [Hsorted Hlen].
  unfold Intersecter.find, Intersecter.bind.
  destruct (self_intervals_spec chrom self) as (self' & -> & Hsame).
  set (l := partition self chrom) in *.
  unfold Intersecter.self_max_len, Intersecter.lift. simpl.
  pose proof Hsame as [Hm _]. rewrite Hm.
  destruct (binsearch_left_start_sorted l (qs - Intersecter.max_len self) 0 (len l))
    as (ileft & -> & Hil & Hbelow & _); [done|pose proof (len_nonneg l); lia|lia|].
  destruct (binsearch_right_end_sorted l qe ileft (len l))
    as (iright & -> & Hir & _ & Habove); [done|lia|lia|].
  unfold Feature_range, Feature_init. destruct (Z.leb_spec qs qe); [|lia].
  unfold Intersecter.ret. eexists. split; [|exact Hsame].
  do 3 f_equal.
  set (P := fun f : Feature => distance f (mkFeature qs qe 0 "" None None) = 0).
  assert (filter P (take (Z.to_nat ileft) l) = []) as Hbefore.
  { apply filter_none, Forall_lookup_2. intros j f Hj.
    apply lookup_take_Some in Hj as [Hj Hjl].
    pose proof (Hbelow (Z.of_nat j) f ltac:(lia)) as Hf.
    rewrite Nat2Z.id in Hf. specialize (Hf Hj).
    pose proof (Forall_lookup_1 _ _ _ _ Hlen Hj) as Hfl. simpl in Hfl.
    unfold P, distance. simpl.
    destruct (Z.ltb_spec (end_ f) qs); lia. }
  assert (filter P (drop (Z.to_nat iright) l) = []) as Hafter.
  { apply filter_none, Forall_lookup_2. intros j f Hj.
    rewrite lookup_drop in Hj.
    pose proof (lookup_lt_Some _ _ _ Hj) as Hjl. unfold len in *.
    pose proof (Habove (Z.of_nat (Z.to_nat iright + j)) f ltac:(lia)) as Hf.
    rewrite Nat2Z.id in Hf. specialize (Hf Hj).
    unfold P, distance. simpl.
    destruct (Z.ltb_spec (end_ f) qs); [lia|].
    destruct (Z.ltb_spec qe (start f)); lia. }
  rewrite (py_slice_split l ileft iright) at 2 by lia.
  by rewrite !filter_app, Hbefore, Hafter, app_nil_r.
Qed.

(** C1. On a constructed Intersecter and for [start <= end],
    [find(start, end, chrom)] returns exactly the features stored under
    [chrom] whose distance to [Feature(start, end)] is zero, in the order
    of the stored start-sorted list; under an unknown key or an empty
    list it returns the empty list, without raising. *)
Theorem find_spec (ivs : list Feature) (self : Intersecter.t)
    (qs qe : Z) (chrom : option string) :
  Intersecter.init ivs = Return self -> qs <= qe ->
  result_of (Intersecter.find qs qe chrom self) =
    Some (Return (filter (fun f => distance f (mkFeature qs qe 0 "" None None) = 0)
                    (partition self chrom))) /\
  (Intersecter.intervals self !! chrom = None \/ partition self chrom = [] ->
   result_of (Intersecter.find qs qe chrom self) = Some (Return [])).
Proof.
  intros Hinit Hse.
  destruct (find_returns self qs qe chrom (init_ok _ _ Hinit) Hse)
    as (self' & Hfind & _).
  rewrite Hfind. split; [done|].
  intros Hempty. assert (partition self chrom = []) as ->; [|done].
  destruct Hempty as [Hnone|Hnil]; [|done]. unfold partition. by rewrite Hnone.
Qed.

Lemma find_spec_witness :
  result_of (Intersecter.find 2 5 None doc_intersecter) =
    Some (Return (filter (fun f => distance f (mkFeature 2 5 0 "" None None) = 0)
                    (partition doc_intersecter None))) /\
  (Intersecter.intervals doc_intersecter !! None = None \/
   partition doc_intersecter None = [] ->
   result_of (Intersecter.find 2 5 None doc_intersecter) = Some (Return [])).
Proof.
  apply (find_spec doc_features doc_intersecter 2 5 None).
  - reflexivity.
  - lia.
Defined.

Example find_doc_1 :
  result_of (Intersecter.find 2 5 None doc_intersecter) =
  Some (Return [F 0 10 (-1); F 3 7 1; F 3 40 (-1)]).
Proof. reflexivity. Qed.

Example find_doc_2 :
  result_of (Intersecter.find 11 100 None doc_intersecter) =
  Some (Return [F 3 40 (-1); F 13 50 1]).
Proof. reflexivity. Qed.

Example find_doc_3 :
  result_of (Intersecter.find 100 200 None doc_intersecter) = Some (Return []).
Proof. reflexivity. Qed.

Example find_unknown_chrom :
  result_of (Intersecter.find 2 5 (Some "chr7") doc_intersecter) = Some (Return []).
Proof. reflexivity. Qed.

(** ** upstream and downstream *)

(** C9. When [f.strand == -1], [upstream] is [right] and [downstream] is
    [left]; for every other strand [upstream] is [left] and [downstream]
    is [right]: same result, same state. *)
Theorem strand_dispatch (depth : nat) (f : Feature) (n : Z) (self : Intersecter.t) :
  (strand f = -1 ->
   Intersecter.upstream depth f n self = Intersecter.right f n self /\
   Intersecter.downstream depth f n self = Intersecter.left depth f n self) /\
  (strand f <> -1 ->
   Intersecter.upstream depth f n self = Intersecter.left depth f n self /\
   Intersecter.downstream depth f n self = Intersecter.right f n self).
Proof.
  unfold Intersecter.upstream, Intersecter.downstream.
  destruct (Z.eqb_spec (strand f) (-1)); split; intros; (done || lia).
Qed.

Lemma strand_dispatch_witness :
  (Intersecter.upstream 4 (F 11 12 (-1)) 1 doc_intersecter =
     Intersecter.right (F 11 12 (-1)) 1 doc_intersecter /\
   Intersecter.downstream 4 (F 11 12 (-1)) 1 doc_intersecter =
     Intersecter.left 4 (F 11 12 (-1)) 1 doc_intersecter) /\
  (Intersecter.upstream 4 (F 11 12 1) 1 doc_intersecter =
     Intersecter.left 4 (F 11 12 1) 1 doc_intersecter /\
   Intersecter.downstream 4 (F 11 12 1) 1 doc_intersecter =
     Intersecter.right (F 11 12 1) 1 doc_intersecter).
Proof.
  split.
  - apply (strand_dispatch 4 (F 11 12 (-1)) 1 doc_intersecter). reflexivity.
  - apply (strand_dispatch 4 (F 11 12 1) 1 doc_intersecter). simpl. lia.
Defined.

Example upstream_doc_1 :
  result_of (Intersecter.upstream 4 (F 11 12 1) 1 doc_intersecter) =
  Some (Return [F 0 10 (-1)]).
Proof. reflexivity. Qed.

Example upstream_doc_2 :
  result_of (Intersecter.upstream 4 (F 11 12 (-1)) 1 doc_intersecter) =
  Some (Return [F 13 50 1]).
Proof. reflexivity. Qed.

Example upstream_doc_3 :
  result_of (Intersecter.upstream 4 (F 1 2 (-1)) 3 doc_intersecter) =
  Some (Return [F 3 7 1; F 3 40 (-1); F 13 50 1]).
Proof. reflexivity. Qed.

(** ** knearest *)

Lemma knearest_by_feature (self : Intersecter.t) (f : Feature) (k : Z) (inclusive : bool) :
  exists ileft iright self',
    binsearch_left_start (partition self (chrom f))
      (start f - Intersecter.max_len self) 0 (len (partition self (chrom f))) = Return ileft /\
    binsearch_right_end (partition self (chrom f)) (end_ f) ileft
      (len (partition self (chrom f))) = Return iright /\
    same_store self self' /\
    Intersecter.knearest (Intersecter.ByFeature f) k inclusive self =
      Some (Raise ZeroDivisionError, self').
Proof.
  unfold Intersecter.knearest, Intersecter.bind, Intersecter.ret.
  destruct (self_intervals_spec (chrom f) self) as (self' & -> & Hsame).
  set (l := partition self (chrom f)).
  unfold Intersecter.self_max_len, Intersecter.lift. simpl.
  pose proof Hsame as [-> _]. pose proof (len_nonneg l).
  destruct (binsearch_left_start_bounds l (start f - Intersecter.max_len self) 0 (len l))
    as (ileft & Hleft & Hil); [lia|lia|].
  destruct (binsearch_right_end_bounds l (end_ f) ileft (len l))
    as (iright & Hright & Hir); [lia|lia|].
  exists ileft, iright, self'. rewrite Hleft, Hright. done.
Qed.

Lemma knearest_by_range (self : Intersecter.t) (s e : Z) (c : option string)
    (k : Z) (inclusive : bool) :
  Intersecter.knearest (Intersecter.ByRange s e c) k inclusive self =
  if s <=? e
  then Intersecter.knearest (Intersecter.ByFeature (mkFeature s e 0 "" None c)) k inclusive self
  else Some (Raise AssertionError, self).
Proof.
  unfold Intersecter.knearest, Intersecter.bind at 1 3, Intersecter.lift at 1,
    Intersecter.ret, Feature_init.
  by destruct (s <=? e).
Qed.

(** C2. [knearest] never returns: every call ends in an exception.  For
    a query that is a feature, or a range with [start <= end], both
    window searches succeed and the exception is the [ZeroDivisionError]
    of the [1/0] that follows them, before the expansion loop. *)
Theorem knearest_raises (self : Intersecter.t) (q : Intersecter.query)
    (k : Z) (inclusive : bool) :
  (exists e self', Intersecter.knearest q k inclusive self = Some (Raise e, self')) /\
  (query_valid q ->
   let f := query_feature q in
   let intervals := partition self (chrom f) in
   exists ileft iright self',
     binsearch_left_start intervals (start f - Intersecter.max_len self) 0 (len intervals)
       = Return ileft /\
     binsearch_right_end intervals (end_ f) ileft (len intervals) = Return iright /\
     Intersecter.knearest q k inclusive self = Some (Raise ZeroDivisionError, self')).
Proof.
  split.
  - destruct q as [f|s e c].
    + destruct (knearest_by_feature self f k inclusive) as (_ & _ & self' & _ & _ & _ & H).
      eauto.
    + rewrite knearest_by_range. destruct (s <=? e); [|eauto].
      destruct (knearest_by_feature self (mkFeature s e 0 "" None c) k inclusive)
        as (_ & _ & self' & _ & _ & _ & H).
      eauto.
  - intros Hq. simpl.
    destruct (knearest_by_feature self (query_feature q) k inclusive)
      as (ileft & iright & self' & Hl & Hr & _ & H).
    exists ileft, iright, self'. split; [done|]. split; [done|].
    destruct q as [f|s e c]; [done|]. simpl in Hq.
    rewrite knearest_by_range. by destruct (Z.leb_spec s e); [|lia].
Qed.

Lemma knearest_raises_witness :
  (exists e self',
     Intersecter.knearest (Intersecter.ByRange 1 2 None) 2 true doc_intersecter =
       Some (Raise e, self')) /\
  (let f := query_feature (Intersecter.ByRange 1 2 None) in
   let intervals := partition doc_intersecter (chrom f) in
   exists ileft iright self',
     binsearch_left_start intervals (start f - Intersecter.max_len doc_intersecter) 0
       (len intervals) = Return ileft /\
     binsearch_right_end intervals (end_ f) ileft (len intervals) = Return iright /\
     Intersecter.knearest (Intersecter.ByRange 1 2 None) 2 true doc_intersecter =
       Some (Raise ZeroDivisionError, self')).
Proof.
  destruct (knearest_raises doc_intersecter (Intersecter.ByRange 1 2 None) 2 true)
    as [Hnever Hzero].
  split; [exact Hnever|]. apply Hzero. simpl. lia.
Defined.

Example knearest_doc_1 :
  result_of (Intersecter.knearest (Intersecter.ByFeature (F 1 2 0)) 1 true doc_intersecter) =
  Some (Raise ZeroDivisionError).
Proof. reflexivity. Qed.

Example knearest_doc_2 :
  result_of (Intersecter.knearest (Intersecter.ByFeature (F 1 2 0)) 2 true doc_intersecter) =
  Some (Raise ZeroDivisionError).
Proof. reflexivity. Qed.

Example knearest_reversed_range :
  result_of (Intersecter.knearest (Intersecter.ByRange 5 3 None) 1 true doc_intersecter) =
  Some (Raise AssertionError).
Proof. reflexivity. Qed.

(** ** Tie inclusion *)

(** C3. The module's own example index, [right(Feature(1, 2), n=1)]:
    three features come back, and the third is at distance 11 while the
    first, the [n]-th result, is at distance 1.  The loop of [right]
    tests for a gap only before it reads the next feature, so a feature
    appended in the last turn is returned unchecked. *)
Theorem right_returns_beyond_tie :
  result_of (Intersecter.right (F 1 2 0) 1 doc_intersecter) =
    Some (Return [F 3 7 1; F 3 40 (-1); F 13 50 1]) /\
  distance (F 1 2 0) (F 3 7 1) = 1 /\
  distance (F 1 2 0) (F 3 40 (-1)) = 1 /\
  distance (F 1 2 0) (F 13 50 1) = 11.
Proof. repeat split. Qed.

(** [left] looks for ties only among starts within [max_len + 1] of the
    query: here two results at distance 5 come back for [n = 1] while the
    stored feature [(88, 98)], at distance 2, is left out. *)
Example left_misses_nearer_feature :
  exists self, Intersecter.init tie_features = Return self /\
    result_of (Intersecter.left 4 (F 100 100 0) 1 self) =
      Some (Return [F 89 95 0; F 90 95 0]) /\
    distance (F 100 100 0) (F 90 95 0) = 5 /\
    distance (F 100 100 0) (F 88 98 0) = 2.
Proof. eexists. repeat split. Qed.

(** When a window holds more than [n] results, all tied, and is not the
    leftmost, [left] recurses with a negative [n] and indexes an empty
    list. *)
Example left_raises_on_tied_window :
  exists self, Intersecter.init [F 0 0 0; F 98 98 1; F 98 98 2] = Return self /\
    result_of (Intersecter.left 4 (F 100 100 0) 1 self) = Some (Raise IndexError).
Proof. eexists. repeat split. Qed.

(** The recursive call of [left] builds its query without [chrom], so it
    continues in the default partition whatever the partition of [f]. *)
Example left_leaves_the_partition :
  exists self,
    Intersecter.init
      [mkFeature 0 10 0 "" None (Some "chr1"); mkFeature 50 60 0 "" None (Some "chr1");
       F 20 30 0; F 0 1 0] = Return self /\
    result_of (Intersecter.left 80 (mkFeature 100 100 0 "" None (Some "chr1")) 2 self) =
      Some (Return [F 20 30 0; F 0 1 0]).
Proof. eexists. split; [reflexivity|]. vm_compute. reflexivity. Qed.

(** ** Queries and the state *)

Lemma keeps_store_ret {A : Type} (a : A) : keeps_store (Intersecter.ret a).
Proof. intros self r self' [= _ <-]. apply same_store_refl. Qed.

Lemma keeps_store_lift {A : Type} (o : outcome A) : keeps_store (Intersecter.lift o).
Proof. intros self r self' [= _ <-]. apply same_store_refl. Qed.

Lemma keeps_store_too_deep {A : Type} : keeps_store (@Intersecter.too_deep A).
Proof. intros self r self' [=]. Qed.

Lemma keeps_store_self_max_len : keeps_store Intersecter.self_max_len.
Proof. intros self r self' [= _ <-]. apply same_store_refl. Qed.

Lemma keeps_store_self_intervals k : keeps_store (Intersecter.self_intervals k).
Proof.
  intros self r self' H.
  destruct (self_intervals_spec k self) as (self1 & H1 & Hs).
  rewrite H1 in H. by injection H as _ <-.
Qed.

Lemma keeps_store_bind {A B : Type} (m : Intersecter.M A) (k : A -> Intersecter.M B) :
  keeps_store m -> (forall a, keeps_store (k a)) -> keeps_store (Intersecter.bind m k).
Proof.
  intros Hm Hk self r self'. unfold Intersecter.bind.
  destruct (m self) as [[[a|e] self1]|] eqn:Hms; [| |done].
  - intros Hka. eapply same_store_trans; [by eapply Hm|by eapply Hk].
  - intros [= _ <-]. by eapply Hm.
Qed.

Ltac solve_keeps_store :=
  repeat first
    [ apply keeps_store_ret | apply keeps_store_lift | apply keeps_store_too_deep
    | apply keeps_store_self_max_len | apply keeps_store_self_intervals
    | apply keeps_store_bind; [|intros ?]
    | match goal with
      | |- keeps_store (if ?b then _ else _) => destruct b
      | |- keeps_store (match ?x with _ => _ end) => destruct x
      end
    | assumption ].

Lemma keeps_store_find s e c : keeps_store (Intersecter.find s e c).
Proof. unfold Intersecter.find. solve_keeps_store. Qed.

Lemma keeps_store_left depth f n : keeps_store (Intersecter.left depth f n).
Proof.
  revert f n. induction depth as [|depth IH]; intros f n; simpl; solve_keeps_store; apply IH.
Qed.

Lemma keeps_store_right f n : keeps_store (Intersecter.right f n).
Proof. unfold Intersecter.right. solve_keeps_store. Qed.

Lemma keeps_store_knearest q k inclusive : keeps_store (Intersecter.knearest q k inclusive).
Proof. unfold Intersecter.knearest. solve_keeps_store. Qed.

(** The set of keys is not preserved: [find] on the example index under
    an unknown chromosome binds that key. *)
Lemma find_binds_unknown_key :
  exists self',
    Intersecter.find 2 5 (Some "chr7") doc_intersecter = Some (Return [], self') /\
    Intersecter.intervals doc_intersecter !! Some "chr7" = None /\
    Intersecter.intervals self' !! Some "chr7" = Some [] /\
    dom (Intersecter.intervals self') <> dom (Intersecter.intervals doc_intersecter).
Proof.
  exists (Intersecter.mk (<[Some "chr7" := []]> (Intersecter.intervals doc_intersecter)) 37).
  split; [vm_compute; reflexivity|]. split; [vm_compute; reflexivity|].
  split; [vm_compute; reflexivity|].
  intros Hdom.
  assert (Some "chr7" ∈ dom (Intersecter.intervals doc_intersecter)) as Hin.
  { rewrite <- Hdom. apply elem_of_dom. eexists. reflexivity. }
  apply elem_of_dom in Hin as [l Hl]. vm_compute in Hl. discriminate.
Qed.

(** C7 (amended). Every query call that ends, by returning or by
    raising, leaves [max_len] and the list stored under every key as they
    were; the only change it can make is to bind a key that was missing
    to an empty list. *)
Theorem queries_keep_store (self self' : Intersecter.t) :
  (forall s e c r, Intersecter.find s e c self = Some (r, self') -> same_store self self') /\
  (forall depth f n r,
     Intersecter.left depth f n self = Some (r, self') -> same_store self self') /\
  (forall f n r, Intersecter.right f n self = Some (r, self') -> same_store self self') /\
  (forall depth f n r,
     Intersecter.upstream depth f n self = Some (r, self') -> same_store self self') /\
  (forall depth f n r,
     Intersecter.downstream depth f n self = Some (r, self') -> same_store self self') /\
  (forall q k inclusive r,
     Intersecter.knearest q k inclusive self = Some (r, self') -> same_store self self').
Proof.
  split; [|split; [|split; [|split; [|split]]]].
  - intros s e c r. apply keeps_store_find.
  - intros depth f n r. apply keeps_store_left.
  - intros f n r. apply keeps_store_right.
  - intros depth f n r. unfold Intersecter.upstream.
    destruct (_ =? _); [apply keeps_store_right|apply keeps_store_left].
  - intros depth f n r. unfold Intersecter.downstream.
    destruct (_ =? _); [apply keeps_store_left|apply keeps_store_right].
  - intros q k inclusive r. apply keeps_store_knearest.
Qed.

Lemma queries_keep_store_witness :
  same_store doc_intersecter
    (Intersecter.mk (<[Some "chr7" := []]> (Intersecter.intervals doc_intersecter)) 37).
Proof.
  apply (proj1 (queries_keep_store doc_intersecter
                  (Intersecter.mk
                     (<[Some "chr7" := []]> (Intersecter.intervals doc_intersecter)) 37))
           2 5 (Some "chr7") (Return [])).
  vm_compute. reflexivity.
Defined.

(** ** One call of left *)

(** A call of [left] with at least one frame left: both searches succeed,
    and what follows depends only on the sorted results of the window. *)
Lemma left_S (depth : nat) (f : Feature) (n : Z) (self : Intersecter.t) :
  let l := partition self (chrom f) in
  exists self1 found ileft,
    same_store self self1 /\
    binsearch_left_start l (start f) 0 (len l) = Return found /\
    0 <= found <= len l /\
    binsearch_left_start l (start f - Intersecter.max_len self - 1) 0 found = Return ileft /\
    0 <= ileft <= found /\
    Intersecter.left (S depth) f n self =
      let results := left_window f l ileft (found + 1) in
      if len results =? n then Some (Return results, self1)
      else
        match Intersecter.left_scan f results (py_range n (len results)) with
        | Raise e => Some (Raise e, self1)
        | Return (Some prefix) => Some (Return prefix, self1)
        | Return None =>
            if ileft =? 0 then Some (Return results, self1)
            else
              match left_next f results with
              | Raise e => Some (Raise e, self1)
              | Return f' =>
                  match Intersecter.left depth f' (n - len results) self1 with
                  | None => None
                  | Some (Raise e, self2) => Some (Raise e, self2)
                  | Some (Return more, self2) => Some (Return (results ++ more), self2)
                  end
              end
        end.
Proof.
  intros l. pose proof (len_nonneg l) as Hl.
  destruct (self_intervals_spec (chrom f) self) as (self1 & Hget & Hsame).
  destruct (binsearch_left_start_bounds l (start f) 0 (len l))
    as (found & Hfound & Hfb); [lia|lia|].
  destruct (binsearch_left_start_bounds l (start f - Intersecter.max_len self - 1) 0 found)
    as (ileft & Hileft & Hib); [lia|lia|].
  exists self1, found, ileft. do 5 (split; [done|]).
  cbn [Intersecter.left]. unfold Intersecter.bind at 1. rewrite Hget. fold l.
  unfold Intersecter.bind at 1, Intersecter.lift at 1. rewrite Hfound.
  unfold Intersecter.bind at 1, Intersecter.self_max_len at 1.
  pose proof Hsame as [-> _].
  unfold Intersecter.bind at 1, Intersecter.lift at 1.
  rewrite Z.add_simpl_r, Hileft, sort_by_dist_compare. fold (left_window f l ileft (found + 1)).
  cbv zeta. set (results := left_window f l ileft (found + 1)).
  destruct (len results =? n); [done|].
  unfold Intersecter.bind at 1, Intersecter.lift at 1.
  destruct (Intersecter.left_scan f results _) as [[prefix|]|e]; [done| |done].
  destruct (ileft =? 0); [done|].
  unfold left_next. destruct (negb (len results =? 0)).
  - unfold Intersecter.bind at 1, Intersecter.lift at 1.
    destruct (py_getitem results (-1)) as [last|e]; [|done]. simpl.
    unfold Intersecter.bind at 1, Intersecter.lift at 1.
    destruct (Feature_init _ _ _ _ _ _) as [f'|e]; [|done].
    unfold Intersecter.bind at 1.
    destruct (Intersecter.left depth f' _ self1) as [[[more|e] self2]|]; done.
  - unfold Intersecter.bind at 1, Intersecter.lift at 1.
    destruct (Feature_init _ _ _ _ _ _) as [f'|e]; [|done].
    unfold Intersecter.bind at 1.
    destruct (Intersecter.left depth f' _ self1) as [[[more|e] self2]|]; done.
Qed.

Lemma StronglySorted_weaken {A : Type} (R R' : A -> A -> Prop) (P : A -> Prop) (l : list A) :
  (forall x y, P x -> P y -> R x y -> R' x y) ->
  Forall P l -> StronglySorted R l -> StronglySorted R' l.
Proof.
  intros HR HP Hs. induction Hs as [|x l Hs IH Hx]; [constructor|].
  apply Forall_cons in HP as [Hpx HP]. constructor; [by apply IH|].
  rewrite Forall_forall in *. intros y Hy. apply HR; auto.
Qed.

Lemma StronglySorted_prefix {A : Type} (R : A -> A -> Prop) (l1 l2 : list A) :
  l1 `prefix_of` l2 -> StronglySorted R l2 -> StronglySorted R l1.
Proof. intros [k ->]. apply StronglySorted_app_1_l. Qed.

Lemma Forall_prefix {A : Type} (P : A -> Prop) (l1 l2 : list A) :
  l1 `prefix_of` l2 -> Forall P l2 -> Forall P l1.
Proof. intros [k ->]. rewrite Forall_app. tauto. Qed.

Lemma py_getitem_last {A : Type} (l : list A) (a : A) :
  py_getitem l (-1) = Return a -> exists l', l = l' ++ [a].
Proof.
  unfold py_getitem. simpl.
  destruct (_ || _) eqn:Hb; [discriminate|].
  destruct (l !! _) as [b|] eqn:Hl; [|discriminate]. intros [= ->].
  apply orb_false_iff in Hb as [Hb1 Hb2].
  apply Z.ltb_ge in Hb1. apply Z.leb_gt in Hb2. unfold len in *.
  destruct (decide (l = [])) as [->|Hne]; [simpl in *; lia|].
  destruct (exists_last Hne) as (l' & b & ->). exists l'. f_equal.
  rewrite length_app in *. simpl in *.
  rewrite lookup_app_r in Hl by lia.
  replace (Z.to_nat _ - length l')%nat with 0%nat in Hl by lia.
  simpl in Hl. congruence.
Qed.

(** ** Direction and order of the results of left *)

Lemma left_post_prefix f l1 l2 : l1 `prefix_of` l2 -> left_post f l2 -> left_post f l1.
Proof.
  intros Hp [H1 H2]. split; [by eapply Forall_prefix|by eapply StronglySorted_prefix].
Qed.

Lemma left_window_post f l a b :
  Forall Feature_valid l -> left_post f (left_window f l a b).
Proof.
  intros Hv. unfold left_window.
  set (cands := filter _ _).
  assert (Forall (fun x => end_ x < start f /\ Feature_valid x) cands) as Hc.
  { apply Forall_forall. intros x Hx. subst cands.
    apply list_elem_of_filter in Hx as [[Hx _] Hin]. split; [done|].
    rewrite Forall_forall in Hv. eapply Hv, py_slice_elem_of, Hin. }
  split; [by apply py_sort_Forall|].
  eapply (StronglySorted_weaken _ _ (fun x => end_ x < start f /\ Feature_valid x));
    [|by apply py_sort_Forall|apply py_sort_key_sorted].
  intros x y [Hx _] [Hy _]. rewrite !distance_right_of by done. lia.
Qed.

Lemma left_scan_prefix f results range prefix :
  Intersecter.left_scan f results range = Return (Some prefix) ->
  prefix `prefix_of` results.
Proof.
  induction range as [|i range IH]; simpl; [discriminate|].
  destruct (py_getitem results (i - 1)) as [a|e]; [|discriminate]. simpl.
  destruct (py_getitem results i) as [b|e]; [|discriminate]. simpl.
  destruct (negb _); [|done]. intros [= <-]. apply py_slice_to_prefix.
Qed.

Lemma left_next_spec f results f' :
  left_post f results -> left_next f results = Return f' ->
  Feature_valid f' /\ start f' < start f /\ end_ f' = end_ f /\
  Forall (fun x => start f' <= end_ x) results.
Proof.
  intros [Hall Hsorted]. unfold left_next.
  destruct (Z.eqb_spec (len results) 0) as [Hz|Hnz]; simpl.
  - intros (Hv & Hs & He & _)%Feature_init_valid.
    destruct results; [|unfold len in Hz; simpl in Hz; lia].
    split; [done|]. split; [lia|]. split; [done|constructor].
  - destruct (py_getitem results (-1)) as [last|e] eqn:Hlast; [|discriminate]. simpl.
    intros (Hv & Hs & He & _)%Feature_init_valid.
    apply py_getitem_last in Hlast as (init & ->).
    apply Forall_app in Hall as [Hinit Hl].
    apply Forall_singleton in Hl as [Hl1 Hl2]. unfold Feature_valid in Hl2.
    split; [done|]. split; [lia|]. split; [done|].
    apply Forall_app. split; [|apply Forall_singleton; lia].
    apply Forall_forall. intros x Hx.
    pose proof (StronglySorted_app_1_elem_of _ _ _ x last Hsorted Hx ltac:(constructor)).
    simpl in *. lia.
Qed.

Lemma left_sound (depth : nat) :
  forall f n self res self',
    stores_valid self ->
    Intersecter.left depth f n self = Some (Return res, self') ->
    left_post f res.
Proof.
  induction depth as [|depth IH]; intros f n self res self' Hvalid; [discriminate|].
  destruct (left_S depth f n self) as (self1 & found & ileft & Hsame & _ & _ & _ & _ & ->).
  cbv zeta.
  pose proof (left_window_post f (partition self (chrom f)) ileft (found + 1)
                (Hvalid (chrom f))) as Hpost.
  set (results := left_window f _ ileft (found + 1)) in *.
  destruct (len results =? n); [by intros [= <- _]|].
  destruct (Intersecter.left_scan f results _) as [[prefix|]|e] eqn:Hscan; [| |discriminate].
  { intros [= <- _]. eapply left_post_prefix; [by eapply left_scan_prefix|done]. }
  destruct (ileft =? 0); [by intros [= <- _]|].
  destruct (left_next f results) as [f'|e] eqn:Hnext; [|discriminate].
  destruct (Intersecter.left depth f' _ self1) as [[[more|e] self2]|] eqn:Hrec;
    [|discriminate..].
  intros [= <- _].
  destruct (left_next_spec f results f' Hpost Hnext) as (Hv' & Hlt & _ & Hfar).
  apply IH in Hrec as [Hmore Hsorted]; [|by eapply stores_valid_same_store].
  destruct Hpost as [Hres Hrsorted]. split.
  - apply Forall_app. split; [done|].
    eapply Forall_impl; [exact Hmore|]. simpl. intros x [? ?]. split; [lia|done].
  - apply StronglySorted_app_2; [|done..].
    intros x y Hx Hy. rewrite Forall_forall in Hfar, Hmore.
    specialize (Hfar x Hx). destruct (Hmore y Hy). lia.
Qed.

(** ** Direction and order of the results of right *)

Lemma right_loop_eq (intervals : list Feature) (f : Feature)
    (n ilen iright : Z) (results : list Feature) :
  Intersecter.right_loop intervals f n ilen iright results =
  if decide (iright < ilen) then
    let i := len results in
    let? gap :=
      (if n <? i then
         let? a := py_getitem results (i - 1) in
         let? b := py_getitem results (i - 2) in
         Return (negb (distance f a =? distance f b))
       else Return false) in
    if gap then Return (py_slice_to results (i - 1))
    else
      let? other := py_getitem intervals iright in
      if distance other f =? 0
      then Intersecter.right_loop intervals f n ilen (iright + 1) results
      else Intersecter.right_loop intervals f n ilen (iright + 1) (results ++ [other])
  else Return results.
Proof.
  etrans; [apply Intersecter.right_loop_equation_1|].
  destruct (Z_lt_dec iright ilen); case_decide; (done || lia).
Qed.

Lemma right_loop_sound (intervals : list Feature) (f : Feature) (n : Z) :
  sorted_by_start intervals ->
  forall iright results res,
    0 <= iright ->
    (forall j y, iright <= j -> intervals !! Z.to_nat j = Some y -> end_ f < start y) ->
    right_post f results ->
    Forall (fun x => exists i, (i < Z.to_nat iright)%nat /\ intervals !! i = Some x) results ->
    Intersecter.right_loop intervals f n (len intervals) iright results = Return res ->
    right_post f res.
Proof.
  intros Hs iright. remember (Z.to_nat (len intervals - iright)) as m eqn:Hm.
  revert iright Hm. induction (lt_wf m) as [m _ IH].
  intros iright -> results res Hir Hafter Hpost Hfrom.
  rewrite right_loop_eq. case_decide as Hlt; [|by intros [= <-]].
  cbv zeta.
  destruct (if n <? len results then _ else _) as [gap|e]; [|discriminate]. simpl.
  destruct gap.
  { intros [= <-]. destruct Hpost as [H1 H2].
    pose proof (py_slice_to_prefix results (len results - 1)) as Hp.
    split; [by eapply Forall_prefix|by eapply StronglySorted_prefix]. }
  destruct (py_getitem_in_range intervals iright ltac:(lia)) as (other & Hother & ->).
  simpl.
  assert (forall j y, iright + 1 <= j -> intervals !! Z.to_nat j = Some y ->
                      end_ f < start y) as Hafter'.
  { intros j y Hj Hy. apply (Hafter j); [lia|done]. }
  destruct (distance other f =? 0).
  - eapply (IH (Z.to_nat (len intervals - (iright + 1))) ltac:(lia) (iright + 1) eq_refl); [lia|done|done|].
    eapply Forall_impl; [exact Hfrom|]. simpl. intros x (i & Hi & Hx).
    exists i. split; [lia|done].
  - eapply (IH (Z.to_nat (len intervals - (iright + 1))) ltac:(lia) (iright + 1) eq_refl); [lia|done| |].
    + destruct Hpost as [H1 H2]. split.
      * apply Forall_app. split; [done|]. apply Forall_singleton.
        by apply (Hafter iright).
      * apply StronglySorted_app_2; [|done|repeat constructor].
        intros x y Hx ->%list_elem_of_singleton.
        rewrite Forall_forall in Hfrom. destruct (Hfrom x Hx) as (i & Hi & Hxi).
        eapply (sorted_by_start_lookup intervals i (Z.to_nat iright)); [done|lia|done..].
    + apply Forall_app. split.
      * eapply Forall_impl; [exact Hfrom|]. simpl. intros x (i & Hi & Hx).
        exists i. split; [lia|done].
      * apply Forall_singleton. exists (Z.to_nat iright). split; [lia|done].
Qed.

Lemma right_sound (f : Feature) (n : Z) (self : Intersecter.t) res self' :
  Intersecter_ok self ->
  Intersecter.right f n self = Some (Return res, self') ->
  right_post f res.
Proof.
  intros [_ Hok]. destruct (Hok (chrom f)) as [Hsorted _].
  unfold Intersecter.right, Intersecter.bind.
  destruct (self_intervals_spec (chrom f) self) as (self1 & -> & _).
  set (l := partition self (chrom f)) in *. pose proof (len_nonneg l).
  unfold Intersecter.lift.
  destruct (binsearch_right_end_sorted l (end_ f) 0 (len l))
    as (iright & -> & Hir & _ & Habove); [done|lia|lia|].
  intros [= Hloop _].
  eapply (right_loop_sound l f n Hsorted iright [] res); [lia| | |constructor|done].
  - intros j y Hj Hy. apply (Habove j); [|done].
    split; [done|]. apply lookup_lt_Some in Hy. unfold len. lia.
  - split; constructor.
Qed.

(** C4. On a constructed Intersecter holding constructed features, every
    feature that [left(f, n)] returns ends before [f] starts, every
    feature that [right(f, n)] returns starts after [f] ends, none of
    them is at distance zero from [f], and both results are in order of
    non-decreasing distance from [f]. *)
Theorem left_right_sound (ivs : list Feature) (self : Intersecter.t)
    (f : Feature) (n : Z) :
  Intersecter.init ivs = Return self ->
  Forall Feature_valid ivs -> Feature_valid f -> 1 <= n ->
  (forall depth res self',
     Intersecter.left depth f n self = Some (Return res, self') ->
     Forall (fun x => end_ x < start f /\ distance f x <> 0) res /\
     StronglySorted (fun x y => distance f x <= distance f y) res) /\
  (forall res self',
     Intersecter.right f n self = Some (Return res, self') ->
     Forall (fun x => end_ f < start x /\ distance f x <> 0) res /\
     StronglySorted (fun x y => distance f x <= distance f y) res).
Proof.
  intros Hinit Hvalid Hf _. split.
  - intros depth res self' Hleft.
    apply left_sound in Hleft as [Hall Hsorted]; [|by eapply init_valid].
    split.
    + eapply Forall_impl; [exact Hall|]. simpl. intros x [Hx Hv].
      split; [done|]. rewrite distance_left_of by done. lia.
    + eapply StronglySorted_weaken; [|exact Hall|exact Hsorted].
      simpl. intros x y [Hx Hvx] [Hy Hvy] Hxy.
      rewrite !distance_left_of by done. lia.
  - intros res self' Hright.
    apply right_sound in Hright as [Hall Hsorted]; [|by eapply init_ok].
    split.
    + eapply Forall_impl; [exact Hall|]. simpl. intros x Hx.
      split; [done|]. rewrite distance_right_of by done. lia.
    + eapply StronglySorted_weaken; [|exact Hall|exact Hsorted].
      simpl. intros x y Hx Hy Hxy. rewrite !distance_right_of by done. lia.
Qed.

Lemma left_right_sound_witness :
  (Forall (fun x => end_ x < start (F 11 12 0) /\ distance (F 11 12 0) x <> 0)
     [F 0 10 (-1)] /\
   StronglySorted (fun x y => distance (F 11 12 0) x <= distance (F 11 12 0) y)
     [F 0 10 (-1)]) /\
  (Forall (fun x => end_ (F 11 12 0) < start x /\ distance (F 11 12 0) x <> 0)
     [F 13 50 1] /\
   StronglySorted (fun x y => distance (F 11 12 0) x <= distance (F 11 12 0) y)
     [F 13 50 1]).
Proof.
  assert (Forall Feature_valid doc_features) as Hvalid.
  { unfold doc_features, Feature_valid. repeat constructor; simpl; lia. }
  assert (Feature_valid (F 11 12 0)) as Hf by (unfold Feature_valid; simpl; lia).
  destruct (left_right_sound doc_features doc_intersecter (F 11 12 0) 1
              eq_refl Hvalid Hf ltac:(lia)) as [Hleft Hright].
  split.
  - apply (Hleft 4%nat [F 0 10 (-1)] doc_intersecter). vm_compute. reflexivity.
  - apply (Hright [F 13 50 1] doc_intersecter). vm_compute. reflexivity.
Defined.

Example left_doc_1 :
  result_of (Intersecter.left 4 (F 0 1 0) 1 doc_intersecter) = Some (Return []).
Proof. reflexivity. Qed.

Example left_doc_2 :
  result_of (Intersecter.left 4 (F 11 12 0) 1 doc_intersecter) =
  Some (Return [F 0 10 (-1)]).
Proof. reflexivity. Qed.

(** ** Termination of left *)

(** A lower-bound search that ends right of [lo] has read a start below
    [x]; the list need not be sorted for that. *)
Lemma binsearch_left_start_moved (intervals : list Feature) (x lo hi i : Z) :
  0 <= lo <= hi -> hi <= len intervals ->
  binsearch_left_start intervals x lo hi = Return i -> lo < i ->
  exists g, g ∈ intervals /\ start g < x.
Proof.
  remember (Z.to_nat (hi - lo)) as m eqn:Hm.
  revert lo hi Hm. induction (lt_wf m) as [m _ IH]. intros lo hi -> Hlo Hhi.
  rewrite binsearch_left_start_eq. case_decide as Hlt; [|intros [= <-]; lia].
  binsearch_turn lo hi intervals f Hf.
  destruct (Z.ltb_spec (start f) x) as [Hfx|Hfx].
  - intros _ _. exists f. split; [by eapply list_elem_of_lookup_2|done].
  - apply (IH (Z.to_nat ((lo + hi) `div` 2 - lo))); [lia|reflexivity|lia|lia].
Qed.

Lemma starts_from_same_store m s1 s2 :
  same_store s1 s2 -> starts_from m s1 -> starts_from m s2.
Proof. intros Hs H k. rewrite (same_store_partition _ _ _ Hs). apply H. Qed.

Lemma left_finishes (depth : nat) :
  forall f n self m,
    Intersecter_ok self -> stores_valid self -> starts_from m self ->
    (Z.to_nat (start f - m) < depth)%nat ->
    exists r self', Intersecter.left depth f n self = Some (r, self').
Proof.
  induction depth as [|depth IH]; intros f n self m Hok Hvalid Hfrom Hdepth; [lia|].
  destruct (left_S depth f n self)
    as (self1 & found & ileft & Hsame & _ & Hfound & Hileft & Hil & ->).
  cbv zeta.
  pose proof (left_window_post f (partition self (chrom f)) ileft (found + 1)
                (Hvalid (chrom f))) as Hpost.
  set (results := left_window f _ ileft (found + 1)) in *.
  destruct (len results =? n); [eauto|].
  destruct (Intersecter.left_scan f results _) as [[prefix|]|e]; [eauto| |eauto].
  destruct (Z.eqb_spec ileft 0) as [|Hne]; [eauto|].
  destruct (left_next f results) as [f'|e] eqn:Hnext; [|eauto].
  destruct (left_next_spec f results f' Hpost Hnext) as (_ & Hlt & _).
  destruct (binsearch_left_start_moved (partition self (chrom f))
              (start f - Intersecter.max_len self - 1) 0 found ileft
              ltac:(lia) ltac:(lia) Hileft ltac:(lia)) as (g & Hg & Hgx).
  pose proof (Hfrom (chrom f)) as Hm. rewrite Forall_forall in Hm. specialize (Hm g Hg).
  destruct Hok as [Hone Hparts].
  destruct (IH f' (n - len results) self1 m) as (r & self2 & ->).
  - by eapply Intersecter_ok_same_store.
  - by eapply stores_valid_same_store.
  - by eapply starts_from_same_store.
  - lia.
  - destruct r; eauto.
Qed.

(** C5 (amended). On a constructed Intersecter holding constructed
    features, [left(f, n)] ends: when [m] is below every stored start, a
    call chain of more than [max(0, f.start - m)] frames is never needed.
    The bound is the distance in coordinates from [f.start] down to the
    smallest start, whatever the number of stored features. *)
Theorem left_terminates (ivs : list Feature) (self : Intersecter.t)
    (f : Feature) (n m : Z) (depth : nat) :
  Intersecter.init ivs = Return self ->
  Forall Feature_valid ivs ->
  Forall (fun x => m <= start x) ivs ->
  (Z.to_nat (start f - m) < depth)%nat ->
  exists r self', Intersecter.left depth f n self = Some (r, self').
Proof.
  intros Hinit Hvalid Hm Hdepth.
  apply (left_finishes depth f n self m);
    [by eapply init_ok|by eapply init_valid| |done].
  intros k.
  destruct (init_nonempty ivs (init_Return_nonempty _ _ Hinit))
    as (self' & Hinit' & Hpart & _).
  rewrite Hinit in Hinit'. injection Hinit' as <-. rewrite Hpart.
  by apply py_sort_Forall, Forall_filter_keep.
Qed.

Lemma left_terminates_witness :
  exists r self', Intersecter.left 13 (F 11 12 0) 1 doc_intersecter = Some (r, self').
Proof.
  apply (left_terminates doc_features doc_intersecter (F 11 12 0) 1 0 13).
  - reflexivity.
  - unfold doc_features, Feature_valid. repeat constructor; simpl; lia.
  - unfold doc_features. repeat constructor; simpl; lia.
  - simpl. lia.
Defined.

Lemma left_lone_too_deep (depth : nat) :
  forall s e self,
    partition self None = [F 0 0 0] -> Intersecter.max_len self = 1 ->
    Z.of_nat depth + 2 <= s -> s <= e ->
    Intersecter.left depth (mkFeature s e 0 "" None None) 1 self = None.
Proof.
  induction depth as [|depth IH]; intros s e self Hpart Hmax Hs He; [done|].
  destruct (left_S depth (mkFeature s e 0 "" None None) 1 self)
    as (self1 & found & ileft & Hsame & Hfound & _ & Hileft & _ & ->).
  simpl in Hfound, Hileft |- *. rewrite Hpart, Hmax in *.
  assert (found = 1) as ->.
  { rewrite binsearch_left_start_eq in Hfound. simpl in Hfound.
    destruct (Z.ltb_spec 0 s); [|lia].
    rewrite binsearch_left_start_eq in Hfound. simpl in Hfound.
    by injection Hfound as <-. }
  assert (ileft = 1) as ->.
  { rewrite binsearch_left_start_eq in Hileft. simpl in Hileft.
    destruct (Z.ltb_spec 0 (s - 1 - 1)); [|lia].
    rewrite binsearch_left_start_eq in Hileft. simpl in Hileft.
    by injection Hileft as <-. }
  change (left_window _ [F 0 0 0] 1 (1 + 1)) with (@nil Feature). simpl.
  unfold left_next, Feature_init. simpl.
  destruct (Z.leb_spec (s - 1) e); [|lia].
  change (1 - len []) with 1.
  rewrite (IH (s - 1) e self1); [done| | |lia|lia].
  - by rewrite (same_store_partition _ _ _ Hsame).
  - destruct Hsame as [-> _]. done.
Qed.

(** For every candidate bound there is a query on the one-feature index
    that needs more frames. *)
Lemma left_not_bounded_by_partition_size : ~ left_bounded_by_partition_size.
Proof.
  intros [bound Hbound].
  set (s := Z.of_nat (bound 1%nat) + 2).
  destruct (Hbound [F 0 0 0] lone_intersecter (mkFeature s s 0 "" None None) 1)
    as (r & self' & Hleft).
  - reflexivity.
  - repeat constructor. unfold Feature_valid. simpl. lia.
  - unfold Feature_valid. simpl. lia.
  - lia.
  - change (length (partition lone_intersecter _)) with 1%nat in Hleft.
    rewrite (left_lone_too_deep (bound 1%nat) s s lone_intersecter) in Hleft;
      [discriminate|reflexivity|reflexivity|lia|lia].
Qed.

Example left_lone_depth :
  result_of (Intersecter.left 8 (F 10 10 0) 1 lone_intersecter) = None /\
  result_of (Intersecter.left 9 (F 10 10 0) 1 lone_intersecter) = Some (Return [F 0 0 0]).
Proof. split; reflexivity. Qed.

(** * Further properties *)

(** ** The binary searches, continued *)

(** The upper bound for [x] is the lower bound for [x + 1]: the two loops
    take the same branch at every midpoint, on any list and any window,
    and raise together when a read falls outside the list. *)
Theorem binsearch_right_end_as_left_start (intervals : list Feature) (x lo hi : Z) :
  binsearch_right_end intervals x lo hi = binsearch_left_start intervals (x + 1) lo hi.
Proof.
  remember (Z.to_nat (hi - lo)) as m eqn:Hm.
  revert lo hi Hm. induction (lt_wf m) as [m _ IH]. intros lo hi ->.
  rewrite binsearch_right_end_eq, binsearch_left_start_eq.
  case_decide as Hlt; [|done]. cbv zeta.
  pose proof (midpoint_bounds lo hi Hlt) as Hmid.
  destruct (py_getitem intervals _) as [f|e]; [|done]. simpl.
  destruct (Z.ltb_spec x (start f)), (Z.ltb_spec (start f) (x + 1)); try lia.
  - eapply (IH (Z.to_nat ((lo + hi) `div` 2 - lo))); [lia|done].
  - eapply (IH (Z.to_nat (hi - ((lo + hi) `div` 2 + 1)))); [lia|done].
Qed.

Lemma filter_all {A : Type} (P : A -> Prop) `{!forall x, Decision (P x)} (l : list A) :
  Forall P l -> filter P l = l.
Proof.
  induction 1 as [|x l Hx _ IH]; [done|]. by rewrite filter_cons_True, IH.
Qed.

Lemma filter_split_at {A : Type} (P : A -> Prop) `{!forall x, Decision (P x)}
    (l : list A) (i : nat) :
  (forall j a, (j < i)%nat -> l !! j = Some a -> P a) ->
  (forall j a, (i <= j)%nat -> l !! j = Some a -> ~ P a) ->
  filter P l = take i l.
Proof.
  intros Hbelow Habove. rewrite <- (take_drop i l) at 1.
  rewrite filter_app, filter_all, filter_none, app_nil_r; [done| |].
  - apply Forall_lookup_2. intros j a Hj. rewrite lookup_drop in Hj.
    eapply Habove; [|done]. lia.
  - apply Forall_lookup_2. intros j a [Hj Hlt]%lookup_take_Some. by eapply Hbelow.
Qed.

(** Over the whole of a list sorted by start, the lower bound is the
    number of features that start below [x], and the upper bound the
    number that start at or below [x]. *)
Theorem binsearch_counts (seq : list Feature) (x : Z) :
  sorted_by_start seq ->
  binsearch_left_start seq x 0 (len seq) =
    Return (len (filter (fun f => start f < x) seq)) /\
  binsearch_right_end seq x 0 (len seq) =
    Return (len (filter (fun f => start f <= x) seq)).
Proof.
  intros Hs. pose proof (len_nonneg seq) as Hl. split.
  - destruct (binsearch_left_start_sorted seq x 0 (len seq) Hs)
      as (i & -> & Hi & Hbelow & Habove); [lia|lia|].
    f_equal. rewrite (filter_split_at _ seq (Z.to_nat i)).
    + unfold len in *. rewrite length_take. lia.
    + intros j a Hj Ha. apply (Hbelow (Z.of_nat j)); [lia|by rewrite Nat2Z.id].
    + intros j a Hj Ha. pose proof (lookup_lt_Some _ _ _ Ha).
      assert (x <= start a); [|lia].
      apply (Habove (Z.of_nat j)); [unfold len; lia|by rewrite Nat2Z.id].
  - destruct (binsearch_right_end_sorted seq x 0 (len seq) Hs)
      as (i & -> & Hi & Hbelow & Habove); [lia|lia|].
    f_equal. rewrite (filter_split_at _ seq (Z.to_nat i)).
    + unfold len in *. rewrite length_take. lia.
    + intros j a Hj Ha. apply (Hbelow (Z.of_nat j)); [lia|by rewrite Nat2Z.id].
    + intros j a Hj Ha. pose proof (lookup_lt_Some _ _ _ Ha).
      assert (x < start a); [|lia].
      apply (Habove (Z.of_nat j)); [unfold len; lia|by rewrite Nat2Z.id].
Qed.

Lemma binsearch_counts_witness :
  binsearch_left_start doc_features 3 0 (len doc_features) =
    Return (len (filter (fun f => start f < 3) doc_features)) /\
  binsearch_right_end doc_features 3 0 (len doc_features) =
    Return (len (filter (fun f => start f <= 3) doc_features)).
Proof. apply (binsearch_counts doc_features 3), doc_features_sorted. Defined.

(** ** distance, continued *)

(** [distance a b] is the least gap between a position of [a] and a
    position of [b]: no two positions are closer, and two positions are
    exactly that far apart. *)
Theorem distance_least_gap (a b : Feature) :
  Feature_valid a -> Feature_valid b ->
  (forall p q, start a <= p <= end_ a -> start b <= q <= end_ b ->
               distance a b <= Z.abs (p - q)) /\
  (exists p q, start a <= p <= end_ a /\ start b <= q <= end_ b /\
               distance a b = Z.abs (p - q)).
Proof.
  unfold Feature_valid, distance. intros Ha Hb.
  destruct (Z.ltb_spec (end_ a) (start b)) as [Hab|Hab];
    [|destruct (Z.ltb_spec (end_ b) (start a)) as [Hba|Hba]].
  - split; [intros; lia|]. exists (end_ a), (start b). lia.
  - split; [intros; lia|]. exists (start a), (end_ b). lia.
  - split; [intros; lia|].
    exists (Z.max (start a) (start b)), (Z.max (start a) (start b)). lia.
Qed.

Lemma distance_least_gap_witness :
  (forall p q, start (F 1 2 0) <= p <= end_ (F 1 2 0) ->
               start (F 12 13 0) <= q <= end_ (F 12 13 0) ->
               distance (F 1 2 0) (F 12 13 0) <= Z.abs (p - q)) /\
  (exists p q, start (F 1 2 0) <= p <= end_ (F 1 2 0) /\
               start (F 12 13 0) <= q <= end_ (F 12 13 0) /\
               distance (F 1 2 0) (F 12 13 0) = Z.abs (p - q)).
Proof.
  apply (distance_least_gap (F 1 2 0) (F 12 13 0)); unfold Feature_valid; simpl; lia.
Defined.

(** ** Sorting by distance *)

Lemma py_sort_cmp_dist_compare (l : list (Feature * Feature)) :
  py_sort_cmp _dist_compare l = py_sort_key (fun p => distance p.1 p.2) l.
Proof.
  unfold py_sort_cmp, py_sort_key. apply py_sort_ext.
  intros a b. unfold _dist_compare, py_cmp.
  destruct (Z.ltb_spec (distance a.1 a.2) (distance b.1 b.2)); [done|].
  by destruct (distance b.1 b.2 <? distance a.1 a.2).
Qed.

(** [sort(cmp=_dist_compare)] on pairs of features rearranges the list
    into non-decreasing distance between the components of each pair, and
    keeps pairs at the same distance in their original order. *)
Theorem sort_by_dist_compare_spec (l : list (Feature * Feature)) :
  py_sort_cmp _dist_compare l ≡ₚ l /\
  StronglySorted (fun p q => distance p.1 p.2 <= distance q.1 q.2)
    (py_sort_cmp _dist_compare l) /\
  forall d, filter (fun p => distance p.1 p.2 = d) (py_sort_cmp _dist_compare l) =
            filter (fun p => distance p.1 p.2 = d) l.
Proof.
  rewrite py_sort_cmp_dist_compare. split; [apply py_sort_perm|].
  split; [apply (py_sort_key_sorted (fun p => distance p.1 p.2))|].
  intros d. apply (py_sort_key_stable (fun p => distance p.1 p.2)).
Qed.

(** ** Construction, continued *)

Lemma init_spec_witness :
  exists self, Intersecter.init doc_features = Return self /\
    (forall k,
       sorted_by_start (partition self k) /\
       partition self k ≡ₚ filter (fun iv => chrom iv = k) doc_features /\
       forall s, filter (fun f => start f = s) (partition self k) =
                 filter (fun f => start f = s)
                   (filter (fun iv => chrom iv = k) doc_features)) /\
    1 <= Intersecter.max_len self /\
    Forall (fun iv => end_ iv - start iv <= Intersecter.max_len self) doc_features /\
    (Intersecter.max_len self = 1 \/
     exists iv, iv ∈ doc_features /\ Intersecter.max_len self = end_ iv - start iv).
Proof. apply (init_spec doc_features). discriminate. Defined.

Lemma group_step_lookup d (iv : Feature) k :
  (let '(l, d') := Intersecter.defaultdict_getitem d (chrom iv) in
   <[chrom iv := l ++ [iv]]> d') !! k =
  if decide (chrom iv = k) then Some (default [] (d !! k) ++ [iv]) else d !! k.
Proof.
  unfold Intersecter.defaultdict_getitem.
  destruct (d !! chrom iv) as [l|] eqn:Hd; case_decide as Hk; subst.
  - by rewrite lookup_insert_eq, Hd.
  - by rewrite lookup_insert_ne.
  - by rewrite lookup_insert_eq, Hd.
  - by rewrite !lookup_insert_ne.
Qed.

Lemma group_by_chrom_nonempty (ivs : list Feature) d k l :
  (forall k l, d !! k = Some l -> l <> []) ->
  foldl (fun d iv =>
           let '(l, d') := Intersecter.defaultdict_getitem d (chrom iv) in
           <[chrom iv := l ++ [iv]]> d') d ivs !! k = Some l ->
  l <> [].
Proof.
  revert d. induction ivs as [|iv ivs IH]; intros d Hd; simpl; [apply Hd|].
  apply IH. intros k' l'. rewrite group_step_lookup. case_decide.
  - intros [= <-]. by destruct (default [] (d !! k')).
  - apply Hd.
Qed.

(** A constructed index has a key for exactly the chromosomes that occur
    in the input, and no key holds an empty list. *)
Theorem init_keys (ivs : list Feature) (self : Intersecter.t) :
  Intersecter.init ivs = Return self ->
  forall k,
    (is_Some (Intersecter.intervals self !! k) <-> exists iv, iv ∈ ivs /\ chrom iv = k) /\
    Intersecter.intervals self !! k <> Some [].
Proof.
  intros Hinit k.
  destruct (init_nonempty ivs (init_Return_nonempty _ _ Hinit))
    as (self' & Hinit' & Hpart & _).
  rewrite Hinit in Hinit'. injection Hinit' as <-.
  assert (Intersecter.intervals self !! k <> Some []) as Hne.
  { revert Hinit. unfold Intersecter.init.
    destruct (py_max _) as [m|e]; [|discriminate]. simpl. intros [= <-]. simpl.
    rewrite lookup_fmap.
    destruct (foldl _ _ _ !! k) as [l|] eqn:Hl; [|done]. simpl. intros [= Hnil].
    apply group_by_chrom_nonempty in Hl; [|by intros ? ?; rewrite lookup_empty].
    apply Hl. apply Permutation_nil_r.
    rewrite <- (py_sort_perm (fun a b => start a <? start b) l).
    fold (py_sort_key start l). by rewrite Hnil. }
  split; [|done].
  specialize (Hpart k). unfold partition in Hpart. split.
  - intros [l Hl]. rewrite Hl in Hpart, Hne. simpl in Hpart.
    destruct l as [|x l]; [done|].
    assert (x ∈ py_sort_key start (filter (fun iv => chrom iv = k) ivs)) as Hx
      by (rewrite <- Hpart; constructor).
    unfold py_sort_key in Hx. rewrite py_sort_perm in Hx.
    apply list_elem_of_filter in Hx as [? ?]. eauto.
  - intros (iv & Hin & Hk).
    destruct (Intersecter.intervals self !! k) as [l|]; [by eexists|].
    simpl in Hpart. exfalso.
    assert (iv ∈ py_sort_key start (filter (fun iv => chrom iv = k) ivs)) as Hx.
    { unfold py_sort_key. rewrite py_sort_perm. by apply list_elem_of_filter. }
    rewrite <- Hpart in Hx. by apply not_elem_of_nil in Hx.
Qed.

Lemma init_keys_witness :
  (is_Some (Intersecter.intervals doc_intersecter !! Some "chr7") <->
   exists iv, iv ∈ doc_features /\ chrom iv = Some "chr7") /\
  Intersecter.intervals doc_intersecter !! Some "chr7" <> Some [].
Proof. apply (init_keys doc_features doc_intersecter eq_refl (Some "chr7")). Defined.

(** ** find, continued *)

Lemma py_insert_filter {A : Type} (key : A -> Z) (P : A -> Prop)
    `{!forall x, Decision (P x)} (x : A) (l : list A) :
  StronglySorted (fun a b => key a <= key b) l ->
  filter P (py_insert (fun a b => key a <? key b) x l) =
  if decide (P x) then py_insert (fun a b => key a <? key b) x (filter P l)
  else filter P l.
Proof.
  induction 1 as [|y l Hs IH Hy]; simpl.
  - rewrite filter_cons, filter_nil. by case_decide.
  - destruct (Z.ltb_spec (key y) (key x)) as [Hlt|Hge].
    + rewrite !filter_cons, IH.
      destruct (decide (P y)), (decide (P x)); simpl; try done.
      by destruct (Z.ltb_spec (key y) (key x)); [|lia].
    + rewrite (filter_cons _ x). case_decide as Hx; [|done].
      assert (forall l', Forall (fun b => key y <= key b) l' ->
                py_insert (fun a b => key a <? key b) x l' = x :: l') as Hins.
      { intros l' Hl'. destruct Hl' as [|z l' Hz _]; [done|]. simpl.
        by destruct (Z.ltb_spec (key z) (key x)); [lia|]. }
      rewrite (filter_cons _ y). case_decide.
      * simpl. by destruct (Z.ltb_spec (key y) (key x)); [lia|].
      * rewrite Hins; [done|]. by apply Forall_filter_keep.
Qed.

Lemma filter_py_sort_key {A : Type} (key : A -> Z) (P : A -> Prop)
    `{!forall x, Decision (P x)} (l : list A) :
  filter P (py_sort_key key l) = py_sort_key key (filter P l).
Proof.
  induction l as [|x l IH]; [done|].
  unfold py_sort_key in *. simpl.
  rewrite py_insert_filter by apply py_sort_key_sorted.
  rewrite filter_cons. case_decide; simpl; by rewrite IH.
Qed.

Lemma distance_zero_overlap (x : Feature) (s e : Z) :
  distance x (mkFeature s e 0 "" None None) = 0 <-> start x <= e /\ s <= end_ x.
Proof.
  unfold distance. simpl.
  destruct (Z.ltb_spec (end_ x) s); [lia|].
  destruct (Z.ltb_spec e (start x)); lia.
Qed.

(** From the input to the answer: on the index built from [ivs],
    [find(s, e, c)] returns the input features of chromosome [c] whose
    closed range meets [[s, e]], sorted by start, in input order for equal
    starts. *)
Theorem find_of_input (ivs : list Feature) (self : Intersecter.t)
    (s e : Z) (c : option string) :
  Intersecter.init ivs = Return self -> s <= e ->
  result_of (Intersecter.find s e c self) =
    Some (Return (py_sort_key start
                    (filter (fun iv => chrom iv = c /\ start iv <= e /\ s <= end_ iv) ivs))).
Proof.
  intros Hinit Hse.
  destruct (find_returns self s e c (init_ok _ _ Hinit) Hse) as (self' & -> & _).
  destruct (init_nonempty ivs (init_Return_nonempty _ _ Hinit))
    as (self1 & Hinit' & Hpart & _).
  rewrite Hinit in Hinit'. injection Hinit' as <-.
  simpl. do 2 f_equal. rewrite Hpart, filter_py_sort_key, list_filter_filter.
  f_equal. apply list_filter_iff. intros x. rewrite distance_zero_overlap. tauto.
Qed.

Lemma find_of_input_witness :
  result_of (Intersecter.find 11 100 None doc_intersecter) =
    Some (Return (py_sort_key start
                    (filter (fun iv => chrom iv = None /\ start iv <= 100 /\ 11 <= end_ iv)
                       doc_features))).
Proof.
  apply (find_of_input doc_features doc_intersecter 11 100 None); [reflexivity|lia].
Defined.

(** Every feature given to the constructor is found again by a query
    for its own range on its own chromosome. *)
Theorem find_round_trip (ivs : list Feature) (self : Intersecter.t) (iv : Feature) :
  Intersecter.init ivs = Return self -> iv ∈ ivs -> Feature_valid iv ->
  exists res,
    result_of (Intersecter.find (start iv) (end_ iv) (chrom iv) self) = Some (Return res) /\
    iv ∈ res.
Proof.
  intros Hinit Hin Hv.
  destruct (find_returns self (start iv) (end_ iv) (chrom iv) (init_ok _ _ Hinit) Hv)
    as (self' & -> & _).
  destruct (init_nonempty ivs (init_Return_nonempty _ _ Hinit))
    as (self1 & Hinit' & Hpart & _).
  rewrite Hinit in Hinit'. injection Hinit' as <-.
  eexists. split; [done|]. apply list_elem_of_filter. split.
  - apply distance_zero_overlap. unfold Feature_valid in Hv. lia.
  - rewrite Hpart. unfold py_sort_key. rewrite py_sort_perm.
    by apply list_elem_of_filter.
Qed.

Lemma find_round_trip_witness :
  exists res,
    result_of (Intersecter.find (start (F 3 40 (-1))) (end_ (F 3 40 (-1)))
                 (chrom (F 3 40 (-1))) doc_intersecter) = Some (Return res) /\
    F 3 40 (-1) ∈ res.
Proof.
  apply (find_round_trip doc_features doc_intersecter (F 3 40 (-1))).
  - reflexivity.
  - unfold doc_features. set_solver.
  - unfold Feature_valid. simpl. lia.
Defined.

(** A wider query range never loses a feature: the answer for [[s, e]]
    is the answer for any range containing it, thinned out. *)
Theorem find_monotone (ivs : list Feature) (self : Intersecter.t)
    (s e s' e' : Z) (c : option string) :
  Intersecter.init ivs = Return self -> s' <= s -> s <= e -> e <= e' ->
  exists res res',
    result_of (Intersecter.find s e c self) = Some (Return res) /\
    result_of (Intersecter.find s' e' c self) = Some (Return res') /\
    res `sublist_of` res'.
Proof.
  intros Hinit Hs Hse He. pose proof (init_ok _ _ Hinit) as Hok.
  destruct (find_returns self s e c Hok Hse) as (self1 & -> & _).
  destruct (find_returns self s' e' c Hok ltac:(lia)) as (self2 & -> & _).
  eexists _, _. split; [done|]. split; [done|].
  set (l := partition self c).
  erewrite (list_filter_iff _ (fun x => distance x (mkFeature s e 0 "" None None) = 0 /\
                               distance x (mkFeature s' e' 0 "" None None) = 0)).
  - rewrite <- list_filter_filter. apply sublist_filter.
  - intros x. rewrite !distance_zero_overlap. lia.
Qed.

Lemma find_monotone_witness :
  exists res res',
    result_of (Intersecter.find 11 12 None doc_intersecter) = Some (Return res) /\
    result_of (Intersecter.find 2 100 None doc_intersecter) = Some (Return res') /\
    res `sublist_of` res'.
Proof.
  apply (find_monotone doc_features doc_intersecter 11 12 2 100 None);
    [reflexivity|lia..].
Defined.

(** A range given backwards is refused, by [find] only after the lookup
    of the chromosome (so the key may have been bound), by [knearest]
    before it touches the index. *)
Theorem reversed_range_raises (self : Intersecter.t) (s e : Z) (c : option string)
    (k : Z) (inclusive : bool) :
  e < s ->
  (exists self', Intersecter.find s e c self = Some (Raise AssertionError, self') /\
     same_store self self') /\
  Intersecter.knearest (Intersecter.ByRange s e c) k inclusive self =
    Some (Raise AssertionError, self).
Proof.
  intros Hes. split.
  - unfold Intersecter.find, Intersecter.bind.
    destruct (self_intervals_spec c self) as (self' & -> & Hsame).
    set (l := partition self c). pose proof (len_nonneg l).
    unfold Intersecter.self_max_len, Intersecter.lift. simpl.
    destruct (binsearch_left_start_bounds l (s - Intersecter.max_len self') 0 (len l))
      as (ileft & -> & Hil); [lia|lia|].
    destruct (binsearch_right_end_bounds l e ileft (len l))
      as (iright & -> & Hir); [lia|lia|].
    unfold Feature_range, Feature_init. destruct (Z.leb_spec s e); [lia|]. eauto.
  - rewrite knearest_by_range. by destruct (Z.leb_spec s e); [lia|].
Qed.

Lemma reversed_range_raises_witness :
  (exists self', Intersecter.find 5 3 None doc_intersecter = Some (Raise AssertionError, self') /\
     same_store doc_intersecter self') /\
  Intersecter.knearest (Intersecter.ByRange 5 3 None) 1 true doc_intersecter =
    Some (Raise AssertionError, doc_intersecter).
Proof. apply (reversed_range_raises doc_intersecter 5 3 None 1 true). lia. Defined.

(** ** Queries do not interfere *)

Lemma store_equiv_refl s : store_equiv s s.
Proof. by split. Qed.

Lemma store_equiv_sym s1 s2 : store_equiv s1 s2 -> store_equiv s2 s1.
Proof. intros [H1 H2]. split; [done|]. intros k. by rewrite H2. Qed.

Lemma store_equiv_trans s1 s2 s3 :
  store_equiv s1 s2 -> store_equiv s2 s3 -> store_equiv s1 s3.
Proof.
  intros [H1 H2] [H3 H4]. split; [congruence|]. intros k. by rewrite H4.
Qed.

Lemma same_store_equiv s1 s2 : same_store s1 s2 -> store_equiv s1 s2.
Proof.
  intros Hs. split; [apply Hs|]. intros k. by apply same_store_partition.
Qed.

Lemma same_answers_ret {A : Type} (a : A) : same_answers (Intersecter.ret a).
Proof. by intros s s' Hs. Qed.

Lemma same_answers_lift {A : Type} (o : outcome A) : same_answers (Intersecter.lift o).
Proof. by intros s s' Hs. Qed.

Lemma same_answers_too_deep {A : Type} : same_answers (@Intersecter.too_deep A).
Proof. by intros s s' Hs. Qed.

Lemma same_answers_self_max_len : same_answers Intersecter.self_max_len.
Proof. intros s s' Hs. simpl. split; [|done]. f_equal. symmetry. apply Hs. Qed.

Lemma same_answers_self_intervals k : same_answers (Intersecter.self_intervals k).
Proof.
  intros s s' Hs.
  destruct (self_intervals_spec k s) as (s1 & -> & H1).
  destruct (self_intervals_spec k s') as (s1' & -> & H1').
  destruct Hs as [Hm Hp]. split; [by rewrite Hp|].
  eapply store_equiv_trans; [apply store_equiv_sym, same_store_equiv, H1|].
  eapply store_equiv_trans; [by split|by apply same_store_equiv].
Qed.

Lemma same_answers_bind {A B : Type} (m : Intersecter.M A) (k : A -> Intersecter.M B) :
  same_answers m -> (forall a, same_answers (k a)) -> same_answers (Intersecter.bind m k).
Proof.
  intros Hm Hk s s' Hs. specialize (Hm s s' Hs). unfold Intersecter.bind.
  destruct (m s) as [[[a|e] t]|], (m s') as [[[a'|e'] t']|]; try done;
    destruct Hm as [[= <-] Ht]; [by apply Hk|done].
Qed.

Ltac solve_same_answers :=
  repeat first
    [ apply same_answers_ret | apply same_answers_lift | apply same_answers_too_deep
    | apply same_answers_self_max_len | apply same_answers_self_intervals
    | apply same_answers_bind; [|intros ?]
    | match goal with
      | |- same_answers (if ?b then _ else _) => destruct b
      | |- same_answers (match ?x with _ => _ end) => destruct x
      end
    | assumption ].

Lemma same_answers_find s e c : same_answers (Intersecter.find s e c).
Proof. unfold Intersecter.find. solve_same_answers. Qed.

Lemma same_answers_left depth f n : same_answers (Intersecter.left depth f n).
Proof.
  revert f n. induction depth as [|depth IH]; intros f n; simpl;
    solve_same_answers; apply IH.
Qed.

Lemma same_answers_right f n : same_answers (Intersecter.right f n).
Proof. unfold Intersecter.right. solve_same_answers. Qed.

Lemma same_answers_knearest q k inclusive :
  same_answers (Intersecter.knearest q k inclusive).
Proof. unfold Intersecter.knearest. solve_same_answers. Qed.

Lemma same_answers_result {A : Type} (m : Intersecter.M A) s s' :
  same_answers m -> same_store s s' -> result_of (m s') = result_of (m s).
Proof.
  intros Hm Hs. specialize (Hm s s' (same_store_equiv _ _ Hs)). unfold result_of.
  destruct (m s) as [[r t]|], (m s') as [[r' t']|]; try done.
  destruct Hm as [-> _]. done.
Qed.

(** Queries do not get in each other's way: in a state [self'] that
    earlier queries left behind ([same_store]: the same lists, perhaps
    more keys bound to nothing), every query returns or raises exactly
    what it does on [self]. *)
Theorem queries_do_not_interfere (self self' : Intersecter.t) :
  same_store self self' ->
  (forall s e c,
     result_of (Intersecter.find s e c self') = result_of (Intersecter.find s e c self)) /\
  (forall depth f n,
     result_of (Intersecter.left depth f n self') =
     result_of (Intersecter.left depth f n self)) /\
  (forall f n,
     result_of (Intersecter.right f n self') = result_of (Intersecter.right f n self)) /\
  (forall depth f n,
     result_of (Intersecter.upstream depth f n self') =
     result_of (Intersecter.upstream depth f n self)) /\
  (forall depth f n,
     result_of (Intersecter.downstream depth f n self') =
     result_of (Intersecter.downstream depth f n self)) /\
  (forall q k inclusive,
     result_of (Intersecter.knearest q k inclusive self') =
     result_of (Intersecter.knearest q k inclusive self)).
Proof.
  intros Hs. split; [|split; [|split; [|split; [|split]]]].
  - intros s e c. by apply same_answers_result; [apply same_answers_find|].
  - intros depth f n. by apply same_answers_result; [apply same_answers_left|].
  - intros f n. by apply same_answers_result; [apply same_answers_right|].
  - intros depth f n. unfold Intersecter.upstream. destruct (_ =? _).
    + by apply same_answers_result; [apply same_answers_right|].
    + by apply same_answers_result; [apply same_answers_left|].
  - intros depth f n. unfold Intersecter.downstream. destruct (_ =? _).
    + by apply same_answers_result; [apply same_answers_left|].
    + by apply same_answers_result; [apply same_answers_right|].
  - intros q k inclusive.
    by apply same_answers_result; [apply same_answers_knearest|].
Qed.

Lemma queries_do_not_interfere_witness :
  result_of (Intersecter.find 11 100 None
               (Intersecter.mk
                  (<[Some "chr7" := []]> (Intersecter.intervals doc_intersecter)) 37)) =
  result_of (Intersecter.find 11 100 None doc_intersecter).
Proof.
  apply (proj1 (queries_do_not_interfere doc_intersecter
                  (Intersecter.mk
                     (<[Some "chr7" := []]> (Intersecter.intervals doc_intersecter)) 37)
                  (keeps_store_find 2 5 (Some "chr7") doc_intersecter (Return []) _
                     ltac:(vm_compute; reflexivity)))
           11 100 None).
Defined.

(** ** right, in full *)

Lemma StronglySorted_lookup_lt {A : Type} (R : A -> A -> Prop) (l : list A)
    (i j : nat) (a b : A) :
  StronglySorted R l -> (i < j)%nat -> l !! i = Some a -> l !! j = Some b -> R a b.
Proof.
  intros Hs Hij Ha Hb.
  rewrite <- (take_drop j l) in Hs.
  apply (StronglySorted_app_1_elem_of _ _ _ a b Hs).
  - apply list_elem_of_lookup. exists i. by rewrite lookup_take_lt.
  - apply list_elem_of_lookup. exists 0%nat. rewrite lookup_drop.
    by rewrite Nat.add_0_r.
Qed.

Lemma filter_split_from {A : Type} (P : A -> Prop) `{!forall x, Decision (P x)}
    (l : list A) (i : nat) :
  (forall j a, (j < i)%nat -> l !! j = Some a -> ~ P a) ->
  (forall j a, (i <= j)%nat -> l !! j = Some a -> P a) ->
  filter P l = drop i l.
Proof.
  intros Hbelow Habove. rewrite <- (take_drop i l) at 1.
  rewrite filter_app, filter_none, filter_all; [done| |].
  - apply Forall_lookup_2. intros j a Hj. rewrite lookup_drop in Hj.
    eapply Habove; [|done]. lia.
  - apply Forall_lookup_2. intros j a [Hj Hlt]%lookup_take_Some. by eapply Hbelow.
Qed.

Lemma rights_drop (f : Feature) (l : list Feature) :
  sorted_by_start l ->
  exists i0, binsearch_right_end l (end_ f) 0 (len l) = Return i0 /\
    0 <= i0 <= len l /\ rights f l = drop (Z.to_nat i0) l.
Proof.
  intros Hs. pose proof (len_nonneg l).
  destruct (binsearch_right_end_sorted l (end_ f) 0 (len l) Hs)
    as (i & Hi & Hb & Hbelow & Habove); [lia|lia|].
  exists i. split; [done|]. split; [done|].
  apply filter_split_from.
  - intros j a Hj Ha. assert (start a <= end_ f); [|lia].
    apply (Hbelow (Z.of_nat j)); [lia|by rewrite Nat2Z.id].
  - intros j a Hj Ha. pose proof (lookup_lt_Some _ _ _ Ha).
    apply (Habove (Z.of_nat j)); [unfold len; lia|by rewrite Nat2Z.id].
Qed.

Lemma rights_apart (f x : Feature) : end_ f < start x -> distance x f <> 0.
Proof.
  unfold distance. intros Hx.
  destruct (Z.ltb_spec (end_ x) (start f)); [lia|].
  destruct (Z.ltb_spec (end_ f) (start x)); lia.
Qed.

Lemma py_slice_to_take {A : Type} (l : list A) (b : Z) :
  0 <= b <= len l -> py_slice_to l b = take (Z.to_nat b) l.
Proof.
  intros Hb. unfold py_slice_to. rewrite py_slice_in_range by lia.
  simpl. by rewrite Z.sub_0_r.
Qed.

Lemma right_loop_cut (intervals : list Feature) (f : Feature) (n i0 : Z) :
  1 <= n -> 0 <= i0 ->
  Forall (fun x => distance x f <> 0) (drop (Z.to_nat i0) intervals) ->
  forall iright results,
    i0 <= iright <= len intervals ->
    results = take (Z.to_nat (iright - i0)) (drop (Z.to_nat i0) intervals) ->
    tied f (drop (Z.to_nat i0) intervals) n (Z.to_nat (iright - i0) - 1) ->
    exists res m,
      Intersecter.right_loop intervals f n (len intervals) iright results = Return res /\
      right_cut f (drop (Z.to_nat i0) intervals) n res m.
Proof.
  intros Hn Hi0 Hapart. set (R := drop (Z.to_nat i0) intervals) in *.
  assert (length R = Z.to_nat (len intervals - i0)) as HlenR.
  { unfold R, len. rewrite length_drop. lia. }
  intros iright. remember (Z.to_nat (len intervals - iright)) as fuel eqn:Hfuel.
  revert iright Hfuel. induction (lt_wf fuel) as [fuel _ IH].
  intros iright -> results Hir -> Htied.
  set (k := Z.to_nat (iright - i0)) in *.
  assert (len (take k R) = Z.of_nat k) as Hlen
    by (unfold len; rewrite length_take; lia).
  rewrite right_loop_eq. case_decide as Hlt.
  - cbv zeta. rewrite !Hlen.
    assert (exists gap,
      (if n <? Z.of_nat k
       then
         let? a := py_getitem (take k R) (Z.of_nat k - 1) in
         let? b := py_getitem (take k R) (Z.of_nat k - 2) in
         Return (negb (distance f a =? distance f b))
       else Return false) = Return gap /\
      (gap = true ->
       n <= Z.of_nat (k - 1) /\
       exists a b, R !! (k - 1)%nat = Some a /\ R !! (k - 1 - 1)%nat = Some b /\
                   distance f a <> distance f b) /\
      (gap = false -> tied f R n k)) as (gap & -> & Hgap & Hnogap).
    { destruct (Z.ltb_spec n (Z.of_nat k)) as [Hnk|Hnk].
      - destruct (py_getitem_in_range (take k R) (Z.of_nat k - 1)) as (a & Ha & ->);
          [lia|].
        destruct (py_getitem_in_range (take k R) (Z.of_nat k - 2)) as (b & Hb & ->);
          [lia|].
        simpl. eexists. split; [done|].
        apply lookup_take_Some in Ha as [Ha _]. apply lookup_take_Some in Hb as [Hb _].
        replace (Z.to_nat (Z.of_nat k - 1)) with (k - 1)%nat in Ha by lia.
        replace (Z.to_nat (Z.of_nat k - 2)) with (k - 1 - 1)%nat in Hb by lia.
        destruct (Z.eqb_spec (distance f a) (distance f b)) as [Heq|Hne]; simpl.
        + split; [done|]. intros _ j a' b' Hj Hjk Ha' Hb'.
          destruct (decide (j = k - 1)%nat) as [->|Hjne].
          * congruence.
          * apply (Htied j a' b'); (done || lia).
        + split; [|done]. intros _. split; [lia|]. eauto.
      - eexists. split; [done|]. split; [done|].
        intros _ j a b Hj Hjk. lia. }
    simpl. destruct gap.
    + destruct (Hgap eq_refl) as (Hnm & a & b & Ha & Hb & Hab).
      exists (take (k - 1) R), (k - 1)%nat. split.
      * f_equal. rewrite py_slice_to_take by lia.
        rewrite take_take. f_equal. lia.
      * split; [done|]. split; [lia|]. split.
        { replace (min (k - 1) (length R - 1)) with (k - 1)%nat by lia. done. }
        intros _. split; [done|]. split; [lia|]. eauto.
    + specialize (Hnogap eq_refl).
      destruct (py_getitem_in_range intervals iright ltac:(lia)) as (other & Hother & ->).
      simpl.
      assert (R !! k = Some other) as HRk.
      { unfold R. rewrite lookup_drop. rewrite <- Hother. f_equal. lia. }
      assert (distance other f <> 0) as Hd
        by (rewrite Forall_lookup in Hapart; by eapply Hapart).
      destruct (Z.eqb_spec (distance other f) 0); [done|].
      apply (IH (Z.to_nat (len intervals - (iright + 1))) ltac:(lia) (iright + 1) eq_refl);
        [lia| |].
      * replace (Z.to_nat (iright + 1 - i0)) with (S k) by lia.
        by rewrite (take_S_r _ _ other).
      * replace (Z.to_nat (iright + 1 - i0) - 1)%nat with k by lia. done.
  - exists (take k R), (length R). split; [done|].
    assert (k = length R) as Hk by lia.
    split; [by rewrite Hk|]. split; [done|]. split; [|lia].
    replace (min (length R) (length R - 1)) with (k - 1)%nat by lia. done.
Qed.

(** With [R] the features stored under [f.chrom] that start after [f]
    ends, in stored order, [right(f, n)] for [n >= 1] returns [R] cut
    after its first [m] features: at least [n] of them, or all of [R].
    The cut is all of [R] unless some position [m >= n] that is not the
    last of [R] differs in distance from the one before it, and then it is
    the first such position.  (The last position of [R] is never
    compared.) *)
Theorem right_spec (ivs : list Feature) (self : Intersecter.t) (f : Feature) (n : Z) :
  Intersecter.init ivs = Return self -> 1 <= n ->
  let R := rights f (partition self (chrom f)) in
  exists res m,
    result_of (Intersecter.right f n self) = Some (Return res) /\
    res = take m R /\ (m <= length R)%nat /\
    Z.min n (len R) <= Z.of_nat m /\
    tied f R n (min m (length R - 1)) /\
    ((m < length R)%nat ->
     (m + 1 < length R)%nat /\
     exists a b, R !! m = Some a /\ R !! (m - 1)%nat = Some b /\
                 distance f b < distance f a).
Proof.
  intros Hinit Hn R. destruct (init_ok _ _ Hinit) as [_ Hok].
  destruct (Hok (chrom f)) as [Hsorted _].
  set (l := partition self (chrom f)) in *.
  destruct (rights_drop f l Hsorted) as (i0 & Hi0 & Hb & HR).
  fold R in HR.
  assert (sorted_by_start R) as HRsorted.
  { rewrite HR. rewrite <- (take_drop (Z.to_nat i0) l) in Hsorted.
    by apply StronglySorted_app_1_r in Hsorted. }
  destruct (right_loop_cut l f n i0 Hn ltac:(lia)) with (iright := i0) (results := @nil Feature)
    as (res & m & Hloop & Hres & Hm & Htied & Hcut).
  - rewrite <- HR. apply Forall_forall. intros x [Hx _]%list_elem_of_filter.
    by apply rights_apart.
  - lia.
  - by rewrite Z.sub_diag.
  - intros j a b Hj Hjk. rewrite Z.sub_diag in Hjk. simpl in Hjk. lia.
  - rewrite <- HR in *. exists res, m. split.
    { unfold Intersecter.right, Intersecter.bind.
      destruct (self_intervals_spec (chrom f) self) as (self1 & -> & _). fold l.
      unfold Intersecter.lift. rewrite Hi0, Hloop. done. }
    split; [done|]. split; [done|]. split.
    { unfold len. destruct (decide (m < length R)%nat) as [Hlt|Hge]; [|lia].
      destruct (Hcut Hlt) as [? _]. lia. }
    split; [done|]. intros Hlt.
    destruct (Hcut Hlt) as (Hnm & Hm1 & a & b & Ha & Hb' & Hab).
    split; [done|]. exists a, b. split; [done|]. split; [done|].
    assert (end_ f < start a) as Hfa.
    { apply list_elem_of_lookup_2 in Ha. unfold R, rights in Ha.
      by apply list_elem_of_filter in Ha as [? _]. }
    assert (end_ f < start b) as Hfb.
    { apply list_elem_of_lookup_2 in Hb'. unfold R, rights in Hb'.
      by apply list_elem_of_filter in Hb' as [? _]. }
    rewrite !distance_right_of in * by done.
    assert (start b <= start a); [|lia].
    apply (StronglySorted_lookup_lt _ R (m - 1) m b a HRsorted); [lia|done|done].
Qed.

Lemma right_spec_witness :
  exists res m,
    result_of (Intersecter.right (F 1 2 0) 1 doc_intersecter) = Some (Return res) /\
    res = take m (rights (F 1 2 0) (partition doc_intersecter (chrom (F 1 2 0)))) /\
    (m <= length (rights (F 1 2 0) (partition doc_intersecter (chrom (F 1 2 0)))))%nat /\
    Z.min 1 (len (rights (F 1 2 0) (partition doc_intersecter (chrom (F 1 2 0)))))
      <= Z.of_nat m /\
    tied (F 1 2 0) (rights (F 1 2 0) (partition doc_intersecter (chrom (F 1 2 0)))) 1
      (min m (length (rights (F 1 2 0)
                        (partition doc_intersecter (chrom (F 1 2 0)))) - 1)) /\
    ((m < length (rights (F 1 2 0) (partition doc_intersecter (chrom (F 1 2 0)))))%nat ->
     (m + 1 < length (rights (F 1 2 0)
                        (partition doc_intersecter (chrom (F 1 2 0)))))%nat /\
     exists a b,
       rights (F 1 2 0) (partition doc_intersecter (chrom (F 1 2 0))) !! m = Some a /\
       rights (F 1 2 0) (partition doc_intersecter (chrom (F 1 2 0))) !! (m - 1)%nat
         = Some b /\
       distance (F 1 2 0) b < distance (F 1 2 0) a).
Proof.
  apply (right_spec doc_features doc_intersecter (F 1 2 0) 1); [reflexivity|lia].
Defined.

(** ** right with a count below one *)

Lemma right_loop_zero_one (intervals : list Feature) (f : Feature) (ilen : Z) :
  forall iright results,
    Intersecter.right_loop intervals f 0 ilen iright results =
    Intersecter.right_loop intervals f 1 ilen iright results.
Proof.
  intros iright. remember (Z.to_nat (ilen - iright)) as fuel eqn:Hfuel.
  revert iright Hfuel. induction (lt_wf fuel) as [fuel _ IH].
  intros iright -> results.
  rewrite (right_loop_eq _ _ 0), (right_loop_eq _ _ 1).
  case_decide as Hlt; [|done]. cbv zeta.
  assert ((if 0 <? len results
           then
             let? a := py_getitem results (len results - 1) in
             let? b := py_getitem results (len results - 2) in
             Return (negb (distance f a =? distance f b))
           else Return false) =
          (if 1 <? len results
           then
             let? a := py_getitem results (len results - 1) in
             let? b := py_getitem results (len results - 2) in
             Return (negb (distance f a =? distance f b))
           else Return false)) as ->.
  { destruct results as [|a [|b results]]; [done| |].
    - simpl. by rewrite Z.eqb_refl.
    - unfold len. simpl length.
      destruct (Z.ltb_spec 0 (Z.of_nat (S (S (length results))))); [|lia].
      by destruct (Z.ltb_spec 1 (Z.of_nat (S (S (length results))))); [|lia]. }
  destruct (if 1 <? len results then _ else _) as [gap|e]; [|done]. simpl.
  destruct gap; [done|].
  destruct (py_getitem intervals iright) as [other|e]; [|done]. simpl.
  destruct (distance other f =? 0);
    apply (IH (Z.to_nat (ilen - (iright + 1)))); (lia || done).
Qed.

(** Counts below one.  [right(f, 0)] is [right(f, 1)].  With a negative
    count, [right] returns the empty list when nothing stored starts
    after [f] ends, and otherwise raises [IndexError] at its first turn,
    indexing the still empty result list. *)
Theorem right_small_counts (ivs : list Feature) (self : Intersecter.t)
    (f : Feature) (n : Z) :
  Intersecter.init ivs = Return self ->
  Intersecter.right f 0 self = Intersecter.right f 1 self /\
  (n < 0 ->
   result_of (Intersecter.right f n self) =
     Some (if decide (rights f (partition self (chrom f)) = [])
           then Return [] else Raise IndexError)).
Proof.
  intros Hinit. split.
  - unfold Intersecter.right, Intersecter.bind.
    destruct (Intersecter.self_intervals _ _) as [[[l|e] self1]|]; [|done..].
    unfold Intersecter.lift.
    destruct (binsearch_right_end _ _ _ _) as [i0|e]; [|done].
    by rewrite right_loop_zero_one.
  - intros Hn. destruct (init_ok _ _ Hinit) as [_ Hok].
    destruct (Hok (chrom f)) as [Hsorted _].
    set (l := partition self (chrom f)) in *.
    destruct (rights_drop f l Hsorted) as (i0 & Hi0 & Hb & ->).
    unfold Intersecter.right, Intersecter.bind.
    destruct (self_intervals_spec (chrom f) self) as (self1 & -> & _). fold l.
    unfold Intersecter.lift. rewrite Hi0, right_loop_eq. simpl.
    case_decide as Hlt.
    + destruct (Z.ltb_spec n (len (@nil Feature))) as [_|Hge];
        [|unfold len in Hge; simpl in Hge; lia].
      simpl. case_decide as Hnil; [|done].
      apply (f_equal length) in Hnil. rewrite length_drop in Hnil.
      unfold len in *. simpl in Hnil. lia.
    + case_decide as Hnil; [done|]. exfalso. apply Hnil.
      apply drop_ge. unfold len in *. lia.
Qed.

Lemma right_small_counts_witness :
  Intersecter.right (F 1 2 0) 0 doc_intersecter =
    Intersecter.right (F 1 2 0) 1 doc_intersecter /\
  (-1 < 0 ->
   result_of (Intersecter.right (F 1 2 0) (-1) doc_intersecter) =
     Some (if decide (rights (F 1 2 0) (partition doc_intersecter (chrom (F 1 2 0))) = [])
           then Return [] else Raise IndexError)).
Proof. apply (right_small_counts doc_features doc_intersecter (F 1 2 0) (-1)). reflexivity. Defined.

(** ** left, continued *)

Lemma left_window_elem_of f l a b x : x ∈ left_window f l a b -> x ∈ l.
Proof.
  unfold left_window, py_sort_key. rewrite py_sort_perm.
  intros [_ Hx]%list_elem_of_filter. by eapply py_slice_elem_of.
Qed.

Lemma left_from_partitions (depth : nat) :
  forall f n self res self',
    Intersecter.left depth f n self = Some (Return res, self') ->
    Forall (fun x => x ∈ partition self (chrom f) \/ x ∈ partition self None) res.
Proof.
  induction depth as [|depth IH]; intros f n self res self'; [discriminate|].
  destruct (left_S depth f n self) as (self1 & found & ileft & Hsame & _ & _ & _ & _ & ->).
  cbv zeta. set (results := left_window f _ ileft (found + 1)).
  assert (Forall (fun x => x ∈ partition self (chrom f) \/ x ∈ partition self None)
            results) as Hres.
  { apply Forall_forall. intros x Hx. left. by eapply left_window_elem_of. }
  destruct (len results =? n); [by intros [= <- _]|].
  destruct (Intersecter.left_scan f results _) as [[prefix|]|e] eqn:Hscan; [| |discriminate].
  { intros [= <- _]. eapply Forall_prefix; [by eapply left_scan_prefix|done]. }
  destruct (ileft =? 0); [by intros [= <- _]|].
  destruct (left_next f results) as [f'|e] eqn:Hnext; [|discriminate].
  destruct (Intersecter.left depth f' _ self1) as [[[more|e] self2]|] eqn:Hrec;
    [|discriminate..].
  intros [= <- _]. apply Forall_app. split; [done|].
  assert (chrom f' = None) as Hc.
  { unfold left_next in Hnext. destruct (negb _).
    - destruct (py_getitem results (-1)); [|discriminate].
      by apply Feature_init_valid in Hnext as (_ & _ & _ & ->).
    - by apply Feature_init_valid in Hnext as (_ & _ & _ & ->). }
  apply IH in Hrec. rewrite Hc in Hrec.
  eapply Forall_impl; [exact Hrec|]. simpl. intros x.
  rewrite !(same_store_partition _ _ _ Hsame). tauto.
Qed.

(** [left] returns only features that were given to the constructor, each
    from the chromosome of [f] or, because the recursive call drops
    [chrom], from the default partition. *)
Theorem left_from_input (ivs : list Feature) (self : Intersecter.t)
    (depth : nat) (f : Feature) (n : Z) (res : list Feature) (self' : Intersecter.t) :
  Intersecter.init ivs = Return self ->
  Intersecter.left depth f n self = Some (Return res, self') ->
  Forall (fun x => x ∈ ivs /\ (chrom x = chrom f \/ chrom x = None)) res.
Proof.
  intros Hinit Hleft.
  destruct (init_nonempty ivs (init_Return_nonempty _ _ Hinit))
    as (self1 & Hinit' & Hpart & _).
  rewrite Hinit in Hinit'. injection Hinit' as <-.
  eapply Forall_impl; [by eapply left_from_partitions|]. simpl.
  intros x. rewrite !Hpart. unfold py_sort_key. rewrite !py_sort_perm.
  rewrite !list_elem_of_filter. tauto.
Qed.

Lemma left_from_input_witness :
  Forall (fun x => x ∈ doc_features /\ (chrom x = chrom (F 11 12 0) \/ chrom x = None))
    [F 0 10 (-1)].
Proof.
  apply (left_from_input doc_features doc_intersecter 4 (F 11 12 0) 1
           [F 0 10 (-1)] doc_intersecter); [reflexivity|vm_compute; reflexivity].
Defined.

(** When no feature stored under [f.chrom] starts before [f] does (an
    unknown chromosome included), [left(f, n)] for [n >= 1] returns the
    empty list from its first call. *)
Theorem left_nothing_before (ivs : list Feature) (self : Intersecter.t)
    (depth : nat) (f : Feature) (n : Z) :
  Intersecter.init ivs = Return self -> Forall Feature_valid ivs -> 1 <= n ->
  Forall (fun x => start f <= start x) (partition self (chrom f)) ->
  result_of (Intersecter.left (S depth) f n self) = Some (Return []).
Proof.
  intros Hinit Hvalid Hn Hnone.
  pose proof (init_valid _ _ Hinit Hvalid (chrom f)) as Hv.
  destruct (left_S depth f n self)
    as (self1 & found & ileft & _ & Hfound & Hfb & Hileft & Hib & ->).
  cbv zeta. set (l := partition self (chrom f)) in *.
  assert (found = 0) as ->.
  { destruct (decide (0 < found)) as [Hpos|]; [|lia].
    destruct (binsearch_left_start_moved l (start f) 0 (len l) found
                ltac:(lia) ltac:(lia) Hfound Hpos) as (g & Hg & Hlt).
    rewrite Forall_forall in Hnone. specialize (Hnone g Hg). lia. }
  assert (ileft = 0) as -> by lia.
  assert (left_window f l 0 (0 + 1) = []) as ->.
  { destruct (left_window f l 0 (0 + 1)) as [|x r] eqn:Hw; [done|]. exfalso.
    pose proof (left_window_post f l 0 (0 + 1) Hv) as [Hall _].
    assert (x ∈ l) as Hx by (eapply left_window_elem_of; rewrite Hw; constructor).
    rewrite Hw in Hall. apply Forall_cons in Hall as [[Hend Hxv] _].
    rewrite Forall_forall in Hnone. specialize (Hnone x Hx).
    unfold Feature_valid in Hxv. lia. }
  change (len []) with 0. destruct (Z.eqb_spec 0 n); [lia|].
  unfold py_range. rewrite seqZ_nil by lia. done.
Qed.

Lemma left_nothing_before_witness :
  result_of (Intersecter.left 1 (F 0 1 0) 1 doc_intersecter) = Some (Return []).
Proof.
  apply (left_nothing_before doc_features doc_intersecter 0 (F 0 1 0) 1).
  - reflexivity.
  - unfold doc_features, Feature_valid. repeat constructor; simpl; lia.
  - lia.
  - unfold doc_intersecter, partition. simpl. rewrite lookup_singleton_eq. simpl.
    unfold doc_features. repeat constructor; simpl; lia.
Defined.







(** ** Overlapping and neighbouring features *)

(** For one query feature the three kinds of answer never share a
    feature: what [left] returns, what [right] returns and what [find]
    returns for the range of [f] are pairwise disjoint. *)
Theorem answers_disjoint (ivs : list Feature) (self : Intersecter.t) (f : Feature)
    (depth : nat) (n n' : Z) (c : option string)
    (ls rs os : list Feature) (s1 s2 s3 : Intersecter.t) :
  Intersecter.init ivs = Return self -> Forall Feature_valid ivs -> Feature_valid f ->
  Intersecter.left depth f n self = Some (Return ls, s1) ->
  Intersecter.right f n' self = Some (Return rs, s2) ->
  Intersecter.find (start f) (end_ f) c self = Some (Return os, s3) ->
  forall x, (x ∈ ls -> (x ∉ rs) /\ (x ∉ os)) /\ (x ∈ rs -> x ∉ os).
Proof.
  intros Hinit Hvalid Hf Hleft Hright Hfind x.
  apply left_sound in Hleft as [Hls _]; [|by eapply init_valid].
  apply right_sound in Hright as [Hrs _]; [|by eapply init_ok].
  destruct (find_returns self (start f) (end_ f) c (init_ok _ _ Hinit) Hf)
    as (s3' & Hfind' & _).
  rewrite Hfind in Hfind'. injection Hfind' as -> _.
  rewrite Forall_forall in Hls, Hrs. unfold Feature_valid in *.
  split.
  - intros Hx. destruct (Hls x Hx) as [Hend Hxv]. split.
    + intros Hr. specialize (Hrs x Hr). simpl in Hrs. lia.
    + intros [Ho _]%list_elem_of_filter. apply distance_zero_overlap in Ho. lia.
  - intros Hx. specialize (Hrs x Hx). simpl in Hrs.
    intros [Ho _]%list_elem_of_filter. apply distance_zero_overlap in Ho. lia.
Qed.

Lemma answers_disjoint_witness :
  (F 0 10 (-1) ∈ [F 0 10 (-1)] ->
   (F 0 10 (-1) ∉ [F 13 50 1]) /\ (F 0 10 (-1) ∉ [F 3 40 (-1)])) /\
  (F 0 10 (-1) ∈ [F 13 50 1] -> F 0 10 (-1) ∉ [F 3 40 (-1)]).
Proof.
  refine (answers_disjoint doc_features doc_intersecter (F 11 12 0) 4 1 1 None
            [F 0 10 (-1)] [F 13 50 1] [F 3 40 (-1)]
            doc_intersecter doc_intersecter doc_intersecter _ _ _ _ _ _ (F 0 10 (-1))).
  - reflexivity.
  - unfold doc_features, Feature_valid. repeat constructor; simpl; lia.
  - unfold Feature_valid. simpl. lia.
  - vm_compute. reflexivity.
  - vm_compute. reflexivity.
  - vm_compute. reflexivity.
Defined.

(** ** left when the first window reaches the start of the partition *)

Lemma py_slice_from_0 {A : Type} (l : list A) (b : Z) :
  0 <= b -> py_slice l 0 b = take (Z.to_nat b) l.
Proof.
  intros Hb. pose proof (len_nonneg l). unfold py_slice.
  rewrite (py_clamp_in_range _ 0) by lia.
  change (Z.to_nat 0) with 0%nat. rewrite drop_0, Z.sub_0_r.
  unfold py_clamp. destruct (Z.ltb_spec b 0); [lia|].
  destruct (Z.ltb_spec b 0); [lia|].
  destruct (Z.ltb_spec (len l) b); [|done].
  unfold len in *. rewrite !take_ge by lia. done.
Qed.

Lemma left_window_lefts (f : Feature) (l : list Feature) (found : Z) :
  sorted_by_start l -> Forall Feature_valid l ->
  binsearch_left_start l (start f) 0 (len l) = Return found ->
  left_window f l 0 (found + 1) = lefts f l.
Proof.
  intros Hs Hv Hfound. pose proof (len_nonneg l).
  destruct (binsearch_left_start_sorted l (start f) 0 (len l) Hs)
    as (i & Hi & Hb & _ & Habove); [lia|lia|].
  rewrite Hfound in Hi. injection Hi as <-.
  unfold left_window, lefts. f_equal.
  rewrite py_slice_from_0 by lia.
  rewrite <- (take_drop (Z.to_nat (found + 1)) l) at 2.
  rewrite filter_app, (filter_none _ (drop _ l)), app_nil_r.
  - apply list_filter_iff. intros x. split; [tauto|]. intros Hx. split; [done|].
    unfold distance. destruct (Z.ltb_spec (end_ f) (start x)); [lia|].
    destruct (Z.ltb_spec (end_ x) (start f)); lia.
  - apply Forall_lookup_2. intros j x Hj. rewrite lookup_drop in Hj.
    pose proof (lookup_lt_Some _ _ _ Hj) as Hlt.
    pose proof (Forall_lookup_1 _ _ _ _ Hv Hj) as Hxv. unfold Feature_valid in Hxv.
    assert (start f <= start x); [|lia].
    apply (Habove (Z.of_nat (Z.to_nat (found + 1) + j))); [unfold len; lia|].
    by rewrite Nat2Z.id.
Qed.

Lemma left_scan_cut (f : Feature) (results : list Feature) (n : Z) :
  1 <= n ->
  forall (cnt : nat) (i0 : Z),
    n <= i0 -> i0 + Z.of_nat cnt = len results -> tied f results n (Z.to_nat i0) ->
    (exists m,
       Intersecter.left_scan f results (seqZ i0 (Z.of_nat cnt)) =
         Return (Some (take m results)) /\
       n <= Z.of_nat m /\ (m < length results)%nat /\ tied f results n m /\
       exists a b, results !! m = Some a /\ results !! (m - 1)%nat = Some b /\
                   distance f a <> distance f b) \/
    (Intersecter.left_scan f results (seqZ i0 (Z.of_nat cnt)) = Return None /\
     tied f results n (length results)).
Proof.
  intros Hn. induction cnt as [|cnt IH]; intros i0 Hi0 Hlen Htied.
  - right. split; [done|]. replace (length results) with (Z.to_nat i0); [done|].
    unfold len in Hlen. lia.
  - rewrite seqZ_cons by lia. simpl.
    destruct (py_getitem_in_range results (i0 - 1)) as (b & Hb & ->); [lia|].
    destruct (py_getitem_in_range results i0) as (a & Ha & ->); [lia|]. simpl.
    replace (Z.to_nat (i0 - 1)) with (Z.to_nat i0 - 1)%nat in Hb by lia.
    destruct (Z.eqb_spec (distance f b) (distance f a)) as [Heq|Hne]; simpl.
    + replace (Z.pred (Z.of_nat (S cnt))) with (Z.of_nat cnt) by lia.
      apply IH; [lia|lia|].
      intros j a' b' Hj Hjm Ha' Hb'.
      destruct (decide (j = Z.to_nat i0)) as [->|Hjne].
      * congruence.
      * apply (Htied j a' b'); (done || lia).
    + left. exists (Z.to_nat i0). split.
      { by rewrite py_slice_to_take by lia. }
      split; [lia|]. split; [unfold len in *; lia|]. split; [done|].
      exists a, b. split; [done|]. split; [done|]. congruence.
Qed.

Lemma lefts_sorted (f : Feature) (l : list Feature) :
  Feature_valid f -> Forall Feature_valid l ->
  Forall (fun x => end_ x < start f /\ Feature_valid x) (lefts f l) /\
  StronglySorted (fun x y => distance f x <= distance f y) (lefts f l).
Proof.
  intros Hf Hv. unfold lefts.
  assert (Forall (fun x => end_ x < start f /\ Feature_valid x)
            (py_sort_key (fun other => distance other f)
               (filter (fun x => end_ x < start f) l))) as Hall.
  { apply py_sort_Forall, Forall_forall. intros x [Hx Hin]%list_elem_of_filter.
    split; [done|]. rewrite Forall_forall in Hv. by apply Hv. }
  split; [done|].
  eapply StronglySorted_weaken; [|exact Hall|apply py_sort_key_sorted].
  simpl. intros x y [_ Hx] [_ Hy] Hxy.
  by rewrite (distance_sym f x), (distance_sym f y).
Qed.

(** [left] is exact when its first window reaches the start of the
    partition.  If no feature stored under [f.chrom] starts before
    [f.start - max_len - 1], then [left(f, n)] for [n >= 1] returns [C]
    cut after its first [m] features, where [C] is the stored features
    that end before [f] starts, nearest first: at least [n] of them, or
    all.  No two neighbours from position [n - 1] to the end of the
    result differ in distance, and the first feature left out, if any, is
    strictly farther than the last returned. *)
Theorem left_exact_near_start (ivs : list Feature) (self : Intersecter.t)
    (depth : nat) (f : Feature) (n : Z) :
  Intersecter.init ivs = Return self -> Forall Feature_valid ivs ->
  Feature_valid f -> 1 <= n ->
  Forall (fun x => start f - Intersecter.max_len self - 1 <= start x)
    (partition self (chrom f)) ->
  let C := lefts f (partition self (chrom f)) in
  StronglySorted (fun x y => distance f x <= distance f y) C /\
  exists res m,
    result_of (Intersecter.left (S depth) f n self) = Some (Return res) /\
    res = take m C /\ (m <= length C)%nat /\
    Z.min n (len C) <= Z.of_nat m /\
    tied f C n m /\
    ((m < length C)%nat ->
     exists a b, C !! m = Some a /\ C !! (m - 1)%nat = Some b /\
                 distance f b < distance f a).
Proof.
  intros Hinit Hvalid Hf Hn Hnear C.
  destruct (init_ok _ _ Hinit) as [_ Hok].
  destruct (Hok (chrom f)) as [Hsorted _].
  pose proof (init_valid _ _ Hinit Hvalid (chrom f)) as Hv.
  destruct (lefts_sorted f _ Hf Hv) as [_ HC]. fold C in HC. split; [done|].
  destruct (left_S depth f n self)
    as (self1 & found & ileft & _ & Hfound & Hfb & Hileft & Hib & ->).
  cbv zeta. set (l := partition self (chrom f)) in *.
  assert (ileft = 0) as ->.
  { destruct (decide (0 < ileft)) as [Hpos|]; [|lia].
    destruct (binsearch_left_start_moved l _ 0 found ileft
                ltac:(lia) ltac:(lia) Hileft Hpos) as (g & Hg & Hlt).
    rewrite Forall_forall in Hnear. specialize (Hnear g Hg). lia. }
  rewrite (left_window_lefts f l found Hsorted Hv Hfound). fold C.
  pose proof (len_nonneg C) as HlenC.
  destruct (Z.eqb_spec (len C) n) as [Heq|Hne].
  { exists C, (length C). split; [done|]. split; [by rewrite take_ge|].
    split; [done|]. split; [unfold len in *; lia|]. split; [|lia].
    intros j a b Hj Hjm. unfold len in *. lia. }
  destruct (decide (len C < n)) as [Hshort|Hlong].
  { unfold py_range. rewrite seqZ_nil by lia. simpl.
    exists C, (length C). split; [done|]. split; [by rewrite take_ge|].
    split; [done|]. split; [unfold len in *; lia|]. split; [|lia].
    intros j a b Hj Hjm. unfold len in *. lia. }
  unfold py_range. replace (len C - n) with (Z.of_nat (Z.to_nat (len C - n))) by lia.
  destruct (left_scan_cut f C n Hn (Z.to_nat (len C - n)) n)
    as [(m & -> & Hnm & Hm & Htied & a & b & Ha & Hb & Hab)|[-> Htied]]; [lia|lia| | |].
  - intros j a b Hj Hjm. lia.
  - exists (take m C), m. split; [done|]. split; [done|]. split; [lia|].
    split; [lia|]. split; [done|]. intros _.
    exists a, b. split; [done|]. split; [done|].
    assert (distance f b <= distance f a); [|lia].
    apply (StronglySorted_lookup_lt _ C (m - 1) m b a HC); [lia|done|done].
  - simpl. exists C, (length C). split; [done|]. split; [by rewrite take_ge|].
    split; [done|]. split; [unfold len in *; lia|]. split; [done|]. lia.
Qed.

Lemma left_exact_near_start_witness :
  StronglySorted (fun x y => distance (F 11 12 0) x <= distance (F 11 12 0) y)
    (lefts (F 11 12 0) (partition doc_intersecter (chrom (F 11 12 0)))) /\
  exists res m,
    result_of (Intersecter.left 1 (F 11 12 0) 1 doc_intersecter) = Some (Return res) /\
    res = take m (lefts (F 11 12 0) (partition doc_intersecter (chrom (F 11 12 0)))) /\
    (m <= length (lefts (F 11 12 0) (partition doc_intersecter (chrom (F 11 12 0)))))%nat /\
    Z.min 1 (len (lefts (F 11 12 0) (partition doc_intersecter (chrom (F 11 12 0)))))
      <= Z.of_nat m /\
    tied (F 11 12 0) (lefts (F 11 12 0) (partition doc_intersecter (chrom (F 11 12 0))))
      1 m /\
    ((m < length (lefts (F 11 12 0) (partition doc_intersecter (chrom (F 11 12 0)))))%nat ->
     exists a b,
       lefts (F 11 12 0) (partition doc_intersecter (chrom (F 11 12 0))) !! m = Some a /\
       lefts (F 11 12 0) (partition doc_intersecter (chrom (F 11 12 0))) !! (m - 1)%nat
         = Some b /\
       distance (F 11 12 0) b < distance (F 11 12 0) a).
Proof.
  apply (left_exact_near_start doc_features doc_intersecter 0 (F 11 12 0) 1).
  - reflexivity.
  - unfold doc_features, Feature_valid. repeat constructor; simpl; lia.
  - unfold Feature_valid. simpl. lia.
  - lia.
  - unfold doc_intersecter, partition. simpl. rewrite lookup_singleton_eq. simpl.
    unfold doc_features. repeat constructor; simpl; lia.
Defined.

(** ** What a query feature is read for *)

Lemma distance_same_range (f f' x : Feature) :
  start f = start f' -> end_ f = end_ f' ->
  distance f x = distance f' x /\ distance x f = distance x f'.
Proof. unfold distance. by intros -> ->. Qed.

Lemma bind_ext {A B : Type} (m : Intersecter.M A) (k k' : A -> Intersecter.M B) :
  (forall a self, k a self = k' a self) ->
  forall self, Intersecter.bind m k self = Intersecter.bind m k' self.
Proof.
  intros Hk self. unfold Intersecter.bind.
  destruct (m self) as [[[a|e] self1]|]; [apply Hk|done..].
Qed.

Lemma left_scan_same_range (f f' : Feature) results range :
  start f = start f' -> end_ f = end_ f' ->
  Intersecter.left_scan f results range = Intersecter.left_scan f' results range.
Proof.
  intros Hs He. induction range as [|i range IH]; simpl; [done|].
  destruct (py_getitem results (i - 1)) as [a|e]; [|done]. simpl.
  destruct (py_getitem results i) as [b|e]; [|done]. simpl.
  rewrite !(proj1 (distance_same_range f f' _ Hs He)). by rewrite IH.
Qed.

Lemma right_loop_same_range (intervals : list Feature) (f f' : Feature) (n ilen : Z) :
  start f = start f' -> end_ f = end_ f' ->
  forall iright results,
    Intersecter.right_loop intervals f n ilen iright results =
    Intersecter.right_loop intervals f' n ilen iright results.
Proof.
  intros Hs He iright. remember (Z.to_nat (ilen - iright)) as fuel eqn:Hfuel.
  revert iright Hfuel. induction (lt_wf fuel) as [fuel _ IH].
  intros iright -> results.
  rewrite (right_loop_eq _ f), (right_loop_eq _ f').
  case_decide as Hlt; [|done]. cbv zeta.
  assert (forall a b, (distance f a =? distance f b) = (distance f' a =? distance f' b)) as Hd.
  { intros a b. by rewrite !(proj1 (distance_same_range f f' _ Hs He)). }
  destruct (n <? len results).
  - destruct (py_getitem results (len results - 1)) as [a|e]; [|done]. simpl.
    destruct (py_getitem results (len results - 2)) as [b|e]; [|done]. simpl.
    rewrite Hd. destruct (negb _); [done|].
    destruct (py_getitem intervals iright) as [other|e]; [|done]. simpl.
    rewrite (proj2 (distance_same_range f f' other Hs He)).
    destruct (distance other f' =? 0);
      apply (IH (Z.to_nat (ilen - (iright + 1)))); (lia || done).
  - simpl.
    destruct (py_getitem intervals iright) as [other|e]; [|done]. simpl.
    rewrite (proj2 (distance_same_range f f' other Hs He)).
    destruct (distance other f' =? 0);
      apply (IH (Z.to_nat (ilen - (iright + 1)))); (lia || done).
Qed.

Lemma right_same_range (f f' : Feature) (n : Z) (self : Intersecter.t) :
  start f = start f' -> end_ f = end_ f' -> chrom f = chrom f' ->
  Intersecter.right f n self = Intersecter.right f' n self.
Proof.
  intros Hs He Hc. unfold Intersecter.right. rewrite Hc, He.
  apply bind_ext. intros l s1. apply bind_ext. intros iright s2.
  by rewrite (right_loop_same_range l f f').
Qed.

Lemma left_same_range (depth : nat) (f f' : Feature) (n : Z) (self : Intersecter.t) :
  start f = start f' -> end_ f = end_ f' -> chrom f = chrom f' ->
  Intersecter.left depth f n self = Intersecter.left depth f' n self.
Proof.
  intros Hs He Hc. destruct depth as [|depth]; [done|].
  cbn [Intersecter.left]. rewrite Hc, Hs, He.
  apply bind_ext. intros l s1. apply bind_ext. intros found s2.
  apply bind_ext. intros max_len s3. apply bind_ext. intros ileft s4.
  rewrite !sort_by_dist_compare.
  assert (py_sort_key (fun other => distance other f)
            (filter (fun other => end_ other < start f' /\ distance f other <> 0)
               (py_slice l ileft (found + 1))) =
          py_sort_key (fun other => distance other f')
            (filter (fun other => end_ other < start f' /\ distance f' other <> 0)
               (py_slice l ileft (found + 1)))) as Hw.
  { unfold py_sort_key.
    rewrite (py_sort_ext _ (fun a b => distance a f' <? distance b f')).
    - f_equal. apply list_filter_iff. intros x.
      by rewrite (proj1 (distance_same_range f f' x Hs He)).
    - intros a b. by rewrite !(proj2 (distance_same_range f f' _ Hs He)). }
  rewrite Hw, (left_scan_same_range f f') by done. done.
Qed.

(** [left] and [right] read only the start, the end and the chromosome
    of the query feature: two query features that agree on those get the
    same answer and leave the same state, whatever their strand, name and
    info. *)
Theorem query_metadata_ignored (depth : nat) (f f' : Feature) (n : Z)
    (self : Intersecter.t) :
  start f = start f' -> end_ f = end_ f' -> chrom f = chrom f' ->
  Intersecter.left depth f n self = Intersecter.left depth f' n self /\
  Intersecter.right f n self = Intersecter.right f' n self.
Proof.
  intros Hs He Hc. split; [by apply left_same_range|by apply right_same_range].
Qed.

Lemma query_metadata_ignored_witness :
  Intersecter.left 4 (F 11 12 0) 1 doc_intersecter =
    Intersecter.left 4 (mkFeature 11 12 (-1) "fred" (Some "anything") None) 1
      doc_intersecter /\
  Intersecter.right (F 11 12 0) 1 doc_intersecter =
    Intersecter.right (mkFeature 11 12 (-1) "fred" (Some "anything") None) 1
      doc_intersecter.
Proof.
  by apply (query_metadata_ignored 4 (F 11 12 0)
              (mkFeature 11 12 (-1) "fred" (Some "anything") None) 1 doc_intersecter).
Defined.

(** Turning the strand around swaps the two directions: for two query
    features on the same range and chromosome, one on strand [-1] and one
    not, [upstream] of the one is [downstream] of the other. *)
Theorem strand_mirror (depth : nat) (f f' : Feature) (n : Z) (self : Intersecter.t) :
  start f = start f' -> end_ f = end_ f' -> chrom f = chrom f' ->
  strand f = -1 -> strand f' <> -1 ->
  Intersecter.upstream depth f n self = Intersecter.downstream depth f' n self /\
  Intersecter.downstream depth f n self = Intersecter.upstream depth f' n self.
Proof.
  intros Hs He Hc Hf Hf'. unfold Intersecter.upstream, Intersecter.downstream.
  rewrite Hf. destruct (Z.eqb_spec (strand f') (-1)); [done|]. simpl.
  split; [by apply right_same_range|by apply left_same_range].
Qed.

Lemma strand_mirror_witness :
  Intersecter.upstream 4 (F 11 12 (-1)) 1 doc_intersecter =
    Intersecter.downstream 4 (F 11 12 1) 1 doc_intersecter /\
  Intersecter.downstream 4 (F 11 12 (-1)) 1 doc_intersecter =
    Intersecter.upstream 4 (F 11 12 1) 1 doc_intersecter.
Proof.
  apply (strand_mirror 4 (F 11 12 (-1)) (F 11 12 1) 1 doc_intersecter);
    (reflexivity || (simpl; lia)).
Defined.

(** ** The order of the input *)

Lemma max_len_unique (ivs ivs' : list Feature) (m m' : Z) :
  ivs ≡ₚ ivs' ->
  1 <= m -> Forall (fun iv => end_ iv - start iv <= m) ivs ->
  (m = 1 \/ exists iv, iv ∈ ivs /\ m = end_ iv - start iv) ->
  1 <= m' -> Forall (fun iv => end_ iv - start iv <= m') ivs' ->
  (m' = 1 \/ exists iv, iv ∈ ivs' /\ m' = end_ iv - start iv) ->
  m' = m.
Proof.
  intros Hp H1 Hall Hat H1' Hall' Hat'. rewrite Forall_forall in Hall, Hall'.
  assert (m' <= m).
  { destruct Hat' as [->|(iv & Hin & ->)]; [done|]. apply Hall. by rewrite Hp. }
  assert (m <= m'); [|lia].
  destruct Hat as [->|(iv & Hin & ->)]; [done|]. apply Hall'. by rewrite <- Hp.
Qed.

(** Giving the constructor the same features in another order changes
    nothing but the order of features with equal starts: [max_len] is the
    same and every [find] returns the same features. *)
Theorem input_order (ivs ivs' : list Feature) (self : Intersecter.t) :
  Intersecter.init ivs = Return self -> ivs ≡ₚ ivs' ->
  exists self', Intersecter.init ivs' = Return self' /\
    Intersecter.max_len self' = Intersecter.max_len self /\
    forall s e c, s <= e ->
      exists res res',
        result_of (Intersecter.find s e c self) = Some (Return res) /\
        result_of (Intersecter.find s e c self') = Some (Return res') /\
        res ≡ₚ res'.
Proof.
  intros Hinit Hp.
  destruct (init_nonempty ivs (init_Return_nonempty _ _ Hinit))
    as (self1 & Hinit1 & Hpart & H1 & Hall & Hat).
  rewrite Hinit in Hinit1. injection Hinit1 as <-.
  destruct (init_nonempty ivs') as (self' & Hinit' & Hpart' & H1' & Hall' & Hat').
  { intros ->. apply Permutation_nil_r in Hp. by apply (init_Return_nonempty _ _ Hinit). }
  exists self'. split; [done|]. split; [by eapply max_len_unique|].
  intros s e c Hse.
  destruct (find_returns self s e c (init_ok _ _ Hinit) Hse) as (t & -> & _).
  destruct (find_returns self' s e c (init_ok _ _ Hinit') Hse) as (t' & -> & _).
  eexists _, _. split; [done|]. split; [done|].
  rewrite Hpart, Hpart'. unfold py_sort_key. by rewrite !py_sort_perm, Hp.
Qed.

Lemma input_order_witness :
  exists self', Intersecter.init (reverse doc_features) = Return self' /\
    Intersecter.max_len self' = Intersecter.max_len doc_intersecter /\
    forall s e c, s <= e ->
      exists res res',
        result_of (Intersecter.find s e c doc_intersecter) = Some (Return res) /\
        result_of (Intersecter.find s e c self') = Some (Return res') /\
        res ≡ₚ res'.
Proof.
  apply (input_order doc_features (reverse doc_features) doc_intersecter);
    [reflexivity|by rewrite reverse_Permutation].
Defined.
